(** * Universal "Mr. Do!" protection PAL and "Mr. Do's Castle" CPU latch bridge

    A shallow embedding of the protection and inter-CPU handlers of
    [src/mame/universal/mrdo.cpp] and [src/mame/universal/docastle.cpp],
    and of the video, input and ADPCM handlers around them, followed by
    the properties stated about them.

    Conventions.
    - A [u8] is a [Z] in [0, 256); where C++ narrows an [int] back to [u8]
      the truncation is written out with [to_u8].
    - Memory arrays are lists, read with stdpp's lookup and written with
      stdpp's insert.
    - Calls into the host framework (CPU scheduling, interrupt lines) are
      not executed: a handler returns the list of host calls it makes, in
      program order, next to the new driver state. *)

From Stdlib Require Import ZArith Lia Bool List.
From stdpp Require Import base list.
Import ListNotations.

Open Scope Z_scope.

(** ** Machine integers *)

(** Narrowing conversion of an [int] expression to [u8]. *)
Definition to_u8 (x : Z) : Z := Z.land x 0xff.

(** Modelled from the spec: the host template [BIT(x, n)] (not part of the
    driver sources) extracts bit [n] of [x] as 0 or 1. *)
Definition BIT (x n : Z) : Z := Z.land (Z.shiftr x n) 1.

(** C++ conversion of an integer to [bool]. *)
Definition to_bool (x : Z) : bool := negb (x =? 0).

(** * Part I: mrdo.cpp *)

Module Mrdo.

(** The dynamic class of the driver object selects the override of the
    virtual [update_protection]. *)
Inductive device_class : Type :=
| mrdo_state_class
| mrdot_state_class.

(** [address_space]: only its open-bus value is used by this driver. *)
Record address_space : Type := { unmap : Z }.

Record mrdo_state : Type := mk_mrdo_state {
  dyn_class     : device_class;
  m_pal_u001    : Z;                (* u8 m_pal_u001 *)
  m_bypass_pal  : bool;             (* bool const m_bypass_pal *)
  m_pal_enabled : bool;             (* bool m_pal_enabled *)
  m_fieldram    : list (list Z);    (* m_fieldram[2], 0x400 bytes each *)
  m_colorram    : list (list Z);    (* m_colorram[2], 0x400 bytes each *)
  maincpu_rom   : list Z;           (* memregion("maincpu")->base() *)
  maincpu_HL    : Z                 (* m_maincpu->state_int(Z80_HL) *)
}.

Definition set_pal_u001 (v : Z) (s : mrdo_state) : mrdo_state :=
  mk_mrdo_state (dyn_class s) v (m_bypass_pal s) (m_pal_enabled s)
                (m_fieldram s) (m_colorram s) (maincpu_rom s) (maincpu_HL s).

Definition set_fieldram (r : list (list Z)) (s : mrdo_state) : mrdo_state :=
  mk_mrdo_state (dyn_class s) (m_pal_u001 s) (m_bypass_pal s) (m_pal_enabled s)
                r (m_colorram s) (maincpu_rom s) (maincpu_HL s).

Definition set_colorram (r : list (list Z)) (s : mrdo_state) : mrdo_state :=
  mk_mrdo_state (dyn_class s) (m_pal_u001 s) (m_bypass_pal s) (m_pal_enabled s)
                (m_fieldram s) r (maincpu_rom s) (maincpu_HL s).

Definition set_HL (hl : Z) (s : mrdo_state) : mrdo_state :=
  mk_mrdo_state (dyn_class s) (m_pal_u001 s) (m_bypass_pal s) (m_pal_enabled s)
                (m_fieldram s) (m_colorram s) (maincpu_rom s) hl.

(** [void set_protection(bool const state) { m_pal_enabled = state; }] *)
Definition set_protection (state : bool) (s : mrdo_state) : mrdo_state :=
  mk_mrdo_state (dyn_class s) (m_pal_u001 s) (m_bypass_pal s) state
                (m_fieldram s) (m_colorram s) (maincpu_rom s) (maincpu_HL s).

(** Constructors.  [mrdo_state(..., bool const bypass_pal = true)] with the
    member initialisers [m_pal_u001 = 0U] and [m_pal_enabled = true];
    [mrdot_state(...) : mrdo_state(mconfig, type, tag, false)]. *)
Definition blank_ram : list (list Z) := [replicate 0x400 0; replicate 0x400 0].

Definition mrdo_state_ctor (bypass_pal : bool) (rom : list Z) : mrdo_state :=
  mk_mrdo_state mrdo_state_class 0 bypass_pal true blank_ram blank_ram rom 0.

Definition mrdot_state_ctor (rom : list Z) : mrdo_state :=
  mk_mrdo_state mrdot_state_class 0 false true blank_ram blank_ram rom 0.

(** [mrdo_state::machine_reset]: initial outputs are high on power-up. *)
Definition machine_reset (s : mrdo_state) : mrdo_state :=
  set_pal_u001 0xff s.

(** [rom[m_maincpu->state_int(Z80_HL)]].  The region is 0x10000 bytes and
    HL is a 16-bit register, so the index is in range on the machine; the
    model reads 0 outside the list. *)
Definition rom_at (rom : list Z) (addr : Z) : Z :=
  default 0 (rom !! Z.to_nat addr).

(** [mrdo_state::protection_r].  The handler returns [u8], so the value of
    [space.unmap()] is narrowed to a byte. *)
Definition protection_r (space : address_space) (s : mrdo_state) : Z :=
  let rom := maincpu_rom s in
  if m_pal_enabled s then
    if m_bypass_pal s then
      rom_at rom (maincpu_HL s)
    else
      m_pal_u001 s
  else
    to_u8 (unmap space).

(** [mrdo_state::update_protection]: the body holds comments only. *)
Definition mrdo_state_update_protection (data : Z) (s : mrdo_state) : mrdo_state :=
  s.

(** [mrdot_state::update_protection]: each write latches a new value on
    IC U001 (PAL16R6). *)
Definition mrdot_state_update_protection (data : Z) (s : mrdo_state) : mrdo_state :=
  let i9 := BIT data 0 in
  let i8 := BIT data 1 in
  (* i7 = BIT(data, 2): pin 7 not used in equations *)
  let i6 := BIT data 3 in
  let i5 := BIT data 4 in
  let i4 := BIT data 5 in
  let i3 := BIT data 6 in
  let i2 := BIT data 7 in
  let n (x : Z) := Z.lxor 1 x in
  let t1 := to_u8 (Z.land (Z.land (Z.land (Z.land (Z.land (Z.land
              i2 (n i3)) i4) (n i5)) (n i6)) (n i8)) i9) in
  let t2 := to_u8 (Z.land (Z.land (Z.land (Z.land (Z.land (Z.land
              (n i2) (n i3)) i4) i5) (n i6)) i8) (n i9)) in
  let t3 := to_u8 (Z.land (Z.land (Z.land (Z.land (Z.land (Z.land
              i2 i3) (n i4)) (n i5)) i6) (n i8)) i9) in
  let t4 := to_u8 (Z.land (Z.land (Z.land (Z.land (Z.land (Z.land
              (n i2) i3) i4) (n i5)) i6) i8) i9) in
  let r12 := 0 in
  let r13 := to_u8 (Z.shiftl t1 1) in
  let r14 := to_u8 (Z.shiftl (Z.lor t1 t2) 2) in
  let r15 := to_u8 (Z.shiftl (Z.lor t1 t3) 3) in
  let r16 := to_u8 (Z.shiftl t1 4) in
  let r17 := to_u8 (Z.shiftl (Z.lor t1 t3) 5) in
  let r18 := to_u8 (Z.shiftl (Z.lor t3 t4) 6) in
  let r19 := 0 in
  set_pal_u001
    (to_u8 (Z.lnot (Z.lor (Z.lor (Z.lor (Z.lor (Z.lor (Z.lor (Z.lor
              r19 r18) r17) r16) r15) r14) r13) r12)))
    s.

(** Virtual dispatch of [update_protection]. *)
Definition update_protection (data : Z) (s : mrdo_state) : mrdo_state :=
  match dyn_class s with
  | mrdo_state_class => mrdo_state_update_protection data s
  | mrdot_state_class => mrdot_state_update_protection data s
  end.

(** [mrdo_state::protection_w] *)
Definition protection_w (data : Z) (s : mrdo_state) : mrdo_state :=
  if m_pal_enabled s then update_protection data s else s.

(** [ram[Which][offset] = data] on one of the two-bank video RAM arrays. *)
Definition ram_store (ram : list (list Z)) (Which offset : nat) (data : Z)
  : list (list Z) :=
  alter (fun bank => <[offset := data]> bank) Which ram.

Definition ram_load (ram : list (list Z)) (Which offset : nat) : Z :=
  default 0 (default [] (ram !! Which) !! offset).

(** [mrdo_state::fieldram_w<Which>].  The tilemap's dirty marking belongs
    to the video collaborator and is left out. *)
Definition fieldram_w (Which offset : nat) (data : Z) (s : mrdo_state) : mrdo_state :=
  let s1 :=
    if negb (ram_load (m_fieldram s) Which offset =? data)
    then set_fieldram (ram_store (m_fieldram s) Which offset data) s
    else s in
  (* TVRAM writes trigger protection *)
  protection_w data s1.

(** [mrdo_state::colorram_w<Which>] *)
Definition colorram_w (Which offset : nat) (data : Z) (s : mrdo_state) : mrdo_state :=
  let s1 :=
    if negb (ram_load (m_colorram s) Which offset =? data)
    then set_colorram (ram_store (m_colorram s) Which offset data) s
    else s in
  (* TVRAM writes trigger protection *)
  protection_w data s1.

(** Machine configurations: [mrdo] and [mrdobl] only wire devices;
    [mrlo] is [mrdo(config); set_protection(false);]. *)
Definition mrdo (s : mrdo_state) : mrdo_state := s.
Definition mrdobl (s : mrdo_state) : mrdo_state := mrdo s.
Definition mrlo (s : mrdo_state) : mrdo_state := set_protection false (mrdo s).

(** The [GAME] table: driver class and machine configuration per set. *)
Inductive game : Type :=
| GAME_mrdo | GAME_mrdoy | GAME_mrdobl | GAME_yankeedo
| GAME_mrdot | GAME_mrdofix | GAME_mrdu | GAME_mrdofabr
| GAME_mrlo.

Definition build (g : game) (rom : list Z) : mrdo_state :=
  match g with
  | GAME_mrdo | GAME_mrdoy | GAME_yankeedo => mrdo (mrdo_state_ctor true rom)
  | GAME_mrdobl => mrdobl (mrdo_state_ctor true rom)
  | GAME_mrdot | GAME_mrdofix | GAME_mrdu | GAME_mrdofabr => mrdo (mrdot_state_ctor rom)
  | GAME_mrlo => mrlo (mrdo_state_ctor true rom)
  end.

(** What can happen to a running machine, as far as the protection is
    concerned: the bus accesses routed to the handlers above, the Z80 core
    changing HL, and a reset. *)
Inductive bus_op : Type :=
| op_fieldram_w (Which offset : nat) (data : Z)
| op_colorram_w (Which offset : nat) (data : Z)
| op_protection_r (space : address_space)
| op_cpu_HL (hl : Z)
| op_reset.

Definition step (s : mrdo_state) (op : bus_op) : mrdo_state :=
  match op with
  | op_fieldram_w w o d => fieldram_w w o d s
  | op_colorram_w w o d => colorram_w w o d s
  | op_protection_r _ => s
  | op_cpu_HL hl => set_HL hl s
  | op_reset => machine_reset s
  end.

Definition run (ops : list bus_op) (s : mrdo_state) : mrdo_state :=
  fold_left step ops s.

(** The byte the PAL latches for clocked data [d]; it does not depend on
    the state the write finds. *)
Definition pal_output (d : Z) : Z :=
  m_pal_u001 (mrdot_state_update_protection d (mrdot_state_ctor [])).

(** The latch of a running machine only ever holds the reset value or a
    PAL output. *)
Definition latch_ok (s : mrdo_state) : Prop :=
  m_pal_u001 s = 0xff \/ exists d, m_pal_u001 s = pal_output d.

(** A machine of the unprotected set, with HL pointing at a ROM byte, and
    the address space it is read through. *)
Definition mrlo_sample : mrdo_state :=
  set_HL 1 (machine_reset (build GAME_mrlo [0x3e; 0xa5; 0xc9])).

Definition sample_space : address_space := {| unmap := 0 |}.

(** The documented sum-of-products equations, written as the
    specification words them: inputs i9..i2 from bits 0,1,3,4,5,6,7 of
    [d], four product terms, and the complement of the combined outputs. *)
Definition documented_latch (d : Z) : Z :=
  let bit (k : Z) : bool := Z.testbit d k in
  let i9 := bit 0 in let i8 := bit 1 in let i6 := bit 3 in
  let i5 := bit 4 in let i4 := bit 5 in let i3 := bit 6 in
  let i2 := bit 7 in
  let t1 := i2 && negb i3 && i4 && negb i5 && negb i6 && negb i8 && i9 in
  let t2 := negb i2 && negb i3 && i4 && i5 && negb i6 && i8 && negb i9 in
  let t3 := i2 && i3 && negb i4 && negb i5 && i6 && negb i8 && i9 in
  let t4 := negb i2 && i3 && i4 && negb i5 && i6 && i8 && i9 in
  let out :=
    Z.lor (Z.shiftl (Z.b2z t1) 1)
    (Z.lor (Z.shiftl (Z.b2z (t1 || t2)) 2)
    (Z.lor (Z.shiftl (Z.b2z (t1 || t3)) 3)
    (Z.lor (Z.shiftl (Z.b2z t1) 4)
    (Z.lor (Z.shiftl (Z.b2z (t1 || t3)) 5)
           (Z.shiftl (Z.b2z (t3 || t4)) 6))))) in
  Z.lxor out 0xff.

End Mrdo.

(** * Part II: docastle.cpp *)

Module Docastle.

Inductive input_line : Type := INPUT_LINE_IRQ0 | INPUT_LINE_NMI.
Inductive line_state : Type := CLEAR_LINE | ASSERT_LINE | HOLD_LINE.

(** Calls made into the host framework.  [m_cpu[k]] is named by its
    index [k]: [m_cpu[0]] is the master CPU, [m_cpu[1]] the slave. *)
Inductive host_call : Type :=
| spin_until_trigger (cpu : nat) (arg : Z)   (* m_cpu[cpu]->spin_until_trigger(arg) *)
| scheduler_trigger (arg : Z)                (* machine().scheduler().trigger(arg) *)
| set_input_line (cpu : nat) (line : input_line) (st : line_state)
| pulse_input_line (cpu : nat) (line : input_line) (duration : Z)
| logerror.

(** [#define USE_LATCH false] selects the buffer implementation, so the
    state has the two 9-byte buffers and no [m_latch]. *)
Record docastle_state : Type := mk_docastle_state {
  m_prev_ma6 : bool;       (* bool m_prev_ma6 = false *)
  m_buffer0  : list Z;     (* u8 m_buffer0[9]{} *)
  m_buffer1  : list Z      (* u8 m_buffer1[9]{} *)
}.

Definition set_prev_ma6 (b : bool) (s : docastle_state) : docastle_state :=
  mk_docastle_state b (m_buffer0 s) (m_buffer1 s).
Definition set_buffer0 (l : list Z) (s : docastle_state) : docastle_state :=
  mk_docastle_state (m_prev_ma6 s) l (m_buffer1 s).
Definition set_buffer1 (l : list Z) (s : docastle_state) : docastle_state :=
  mk_docastle_state (m_prev_ma6 s) (m_buffer0 s) l.

(** The object as constructed: member initialisers only. *)
Definition docastle_state_ctor : docastle_state :=
  mk_docastle_state false (replicate 9%nat 0) (replicate 9%nat 0).

(** Both arrays have exactly nine cells for the whole life of the object. *)
Definition wf (s : docastle_state) : Prop :=
  length (m_buffer0 s) = 9%nat /\ length (m_buffer1 s) = 9%nat.

(** [#define LOG 0] *)
Definition LOG : bool := false.

(** [buf[offset]]; the address maps decode a 9-byte window, so the
    handlers only ever see offsets 0..8.  Outside the list the model
    reads 0. *)
Definition buffer_at (buf : list Z) (offset : nat) : Z :=
  default 0 (buf !! offset).

(** [docastle_state::cpu1_latch_r] *)
Definition cpu1_latch_r (offset : nat) (s : docastle_state) : Z * list host_call :=
  (buffer_at (m_buffer0 s) offset,
   if (offset =? 8)%nat && LOG then [logerror] else []).

(** [docastle_state::cpu1_latch_w] *)
Definition cpu1_latch_w (offset : nat) (data : Z) (s : docastle_state)
  : docastle_state * list host_call :=
  let s1 := set_buffer1 (<[offset := data]> (m_buffer1 s)) s in
  (s1,
   (if (offset =? 8)%nat && LOG then [logerror] else []) ++
   (* freeze execution of the master CPU until the slave has used the
      shared memory *)
   (if (offset =? 8)%nat then [spin_until_trigger 0 500] else [])).

(** [docastle_state::cpu2_latch_r] *)
Definition cpu2_latch_r (offset : nat) (s : docastle_state) : Z * list host_call :=
  (buffer_at (m_buffer1 s) offset,
   if (offset =? 8)%nat && LOG then [logerror] else []).

(** [docastle_state::cpu2_latch_w] *)
Definition cpu2_latch_w (offset : nat) (data : Z) (s : docastle_state)
  : docastle_state * list host_call :=
  let s1 := set_buffer0 (<[offset := data]> (m_buffer0 s)) s in
  (s1,
   (if (offset =? 8)%nat && LOG then [logerror] else []) ++
   (* awake the master CPU *)
   (if (offset =? 8)%nat then [scheduler_trigger 500] else [])).

(** [docastle_state::nmi_trigger_w]; [attotime::zero] is duration 0. *)
Definition nmi_trigger_w (data : Z) (s : docastle_state)
  : docastle_state * list host_call :=
  (s, [pulse_input_line 1 INPUT_LINE_NMI 0]).

(** [docastle_state::tint], the CRTC's hsync callback.  [crtc_ma] is what
    [m_crtc->get_ma()] returns at the call. *)
Definition tint (crtc_ma : Z) (state : Z) (s : docastle_state)
  : docastle_state * list host_call :=
  if to_bool state then
    let ma6 := to_bool (BIT crtc_ma 6) in
    (set_prev_ma6 ma6 s,
     (* MA6 rising edge *)
     if ma6 && negb (m_prev_ma6 s)
     then [set_input_line 1 INPUT_LINE_IRQ0 HOLD_LINE]
     else [])
  else (s, []).

(** [docastle_state::machine_reset]: [std::fill] over each whole array. *)
Definition machine_reset (s : docastle_state) : docastle_state :=
  let s1 := set_buffer0 (replicate (length (m_buffer0 s)) 0) s in
  let s2 := set_buffer1 (replicate (length (m_buffer1 s1)) 0) s1 in
  set_prev_ma6 false s2.

(** Accesses the running machine routes to the handlers above. *)
Inductive bus_op : Type :=
| op_cpu1_latch_r (offset : nat)
| op_cpu1_latch_w (offset : nat) (data : Z)
| op_cpu2_latch_r (offset : nat)
| op_cpu2_latch_w (offset : nat) (data : Z)
| op_nmi_trigger_w (data : Z)
| op_tint (crtc_ma : Z) (state : Z).

Definition step (op : bus_op) (s : docastle_state)
  : docastle_state * list host_call :=
  match op with
  | op_cpu1_latch_r o => (s, snd (cpu1_latch_r o s))
  | op_cpu1_latch_w o d => cpu1_latch_w o d s
  | op_cpu2_latch_r o => (s, snd (cpu2_latch_r o s))
  | op_cpu2_latch_w o d => cpu2_latch_w o d s
  | op_nmi_trigger_w d => nmi_trigger_w d s
  | op_tint ma st => tint ma st s
  end.

(** State after a sequence of accesses. *)
Definition run (ops : list bus_op) (s : docastle_state) : docastle_state :=
  fold_left (fun s op => fst (step op s)) ops s.

(** CPU A writes [bs] into its outbound buffer, cell by cell from
    offset [i] upwards. *)
Fixpoint write_from (i : nat) (bs : list Z) (s : docastle_state) : docastle_state :=
  match bs with
  | [] => s
  | b :: bs' => write_from (S i) bs' (fst (cpu1_latch_w i b s))
  end.

(** The host calls made at each hsync sample of a run of MA values, all
    with the hsync line asserted. *)
Fixpoint tint_calls (mas : list Z) (s : docastle_state) : list (list host_call) :=
  match mas with
  | [] => []
  | ma :: mas' => snd (tint ma 1 s) :: tint_calls mas' (fst (tint ma 1 s))
  end.

(** Sample indices at which the slave's IRQ line was asserted. *)
Fixpoint fired_from (i : nat) (calls : list (list host_call)) : list nat :=
  match calls with
  | [] => []
  | [set_input_line 1 INPUT_LINE_IRQ0 HOLD_LINE] :: rest => i :: fired_from (S i) rest
  | _ :: rest => fired_from (S i) rest
  end.

End Docastle.

(** * Part III: the rest of mrdo.cpp - video registers, tiles, sprites,
      palette *)

(** Narrowing conversion of an [int] expression to [u16]. *)
Definition to_u16 (x : Z) : Z := Z.land x 0xffff.

(** [arr[i]] on an array held as a list: [None] is a read outside the
    array. *)
Definition read_at (arr : list Z) (i : Z) : option Z :=
  if i <? 0 then None else arr !! Z.to_nat i.

(** [for (int offs = start; offs >= 0; offs -= 4) body(offs)], collecting
    the calls of each iteration; [None] as soon as an iteration reads
    outside an array.  The counter [fuel] only bounds the recursion:
    [Z.to_nat (start + 4)] iterations are never exceeded. *)
Fixpoint loop_offs_down {A : Type} (body : Z -> option (list A))
         (fuel : nat) (offs : Z) : option (list A) :=
  match fuel with
  | O => Some []
  | S fuel' =>
      if 0 <=? offs then
        calls ← body offs;
        rest ← loop_offs_down body fuel' (offs - 4);
        Some (calls ++ rest)
      else Some []
  end.

Module MrdoVideo.
Import Mrdo.

(** Calls into the tilemap and gfx collaborators. *)
Inductive video_call : Type :=
| set_scrollx (layer : nat) (which value : Z)  (* m_tilemap[layer]->set_scrollx(which, value) *)
| set_scrolly (layer : nat) (which value : Z)  (* m_tilemap[layer]->set_scrolly(which, value) *)
| set_flip_all (flipx flipy : bool)            (* TILEMAP_FLIPY | TILEMAP_FLIPX, or 0 *)
| transpen (gfx : nat) (code color : Z) (flipx flipy : bool) (xpos ypos : Z) (trans : Z).

(** [int const flags = opaque ? TILE_FORCE_LAYER0 : 0] *)
Inductive tile_flags : Type := NO_FLAGS | TILE_FORCE_LAYER0.

(** The arguments of [tileinfo.set]. *)
Record tile_data : Type := mk_tile_data {
  tile_gfx   : nat;
  tile_code  : Z;
  tile_color : Z;
  tile_flag  : tile_flags
}.

(** [mrdo_state::get_tile_info<Which>] *)
Definition get_tile_info (Which tile_index : nat) (s : mrdo_state) : tile_data :=
  let attr := ram_load (m_colorram s) Which tile_index in
  let bank := to_bool (BIT attr 7) in
  let opaque := to_bool (BIT attr 6) in
  let color := to_u8 (Z.land attr 0x3f) in
  let code := to_u16 (Z.lor (ram_load (m_fieldram s) Which tile_index)
                            (Z.shiftl (Z.b2z bank) 8)) in
  let flags := if opaque then TILE_FORCE_LAYER0 else NO_FLAGS in
  mk_tile_data Which code color flags.

(** [mrdo_state::scrollx_w] *)
Definition scrollx_w (data : Z) : list video_call :=
  [set_scrollx 0 0 data].

(** [mrdo_state::scrolly_w]: this is NOT affected by flipscreen (so stop it
    happening). *)
Definition scrolly_w (m_flipscreen : bool) (data : Z) : list video_call :=
  if m_flipscreen
  then [set_scrolly 0 0 (Z.land (256 - data) 0xff)]
  else [set_scrolly 0 0 data].

(** [mrdo_state::flipscreen_w]: returns the new [m_flipscreen]. *)
Definition flipscreen_w (data : Z) : bool * list video_call :=
  let flip := to_bool (BIT data 0) in
  (flip, [if flip then set_flip_all true true else set_flip_all false false]).

(** One iteration of the loop of [mrdo_state::draw_sprites], with
    [src = &m_spriteram[offs]]. *)
Definition draw_sprite (m_spriteram : list Z) (offs : Z) : option (list video_call) :=
  src1 ← read_at m_spriteram (offs + 1);
  if negb (src1 =? 0) then
    code ← read_at m_spriteram (offs + 0);
    let ypos := 256 - src1 in
    attr ← read_at m_spriteram (offs + 2);
    let color := to_u8 (Z.land attr 0xf) in
    let flipx := to_bool (BIT attr 4) in
    let flipy := to_bool (BIT attr 5) in
    xpos ← read_at m_spriteram (offs + 3);
    Some [transpen 2 code color flipx flipy xpos ypos 0]
  else Some [].

(** [mrdo_state::draw_sprites] *)
Definition draw_sprites (m_spriteram : list Z) : option (list video_call) :=
  let start := Z.of_nat (length m_spriteram) - 4 in
  loop_offs_down (draw_sprite m_spriteram) (Z.to_nat (start + 4)) start.

(** Calls into the palette device. *)
Inductive palette_call : Type :=
| set_indirect_color (index : Z) (r g b : Z)   (* rgb_t(r, g, b) *)
| set_pen_indirect (pen index : Z).

(** One colour component in the first loop of [mrdo_state::palette]:
    [bits0 = (prom[a1] >> shift) & 0x03; bits2 = (prom[a2] >> shift) & 0x03;
    weight[bits0 + (bits2 << 2)]].  The table [weight] is what the
    floating-point resistor computation at the head of the function leaves
    in [int weight[16]]; that computation is not modelled and the table is
    an argument. *)
Definition palette_component (weight prom : list Z) (a1 a2 shift : Z) : option Z :=
  p1 ← read_at prom a1;
  p2 ← read_at prom a2;
  let bits0 := Z.land (Z.shiftr p1 shift) 0x03 in
  let bits2 := Z.land (Z.shiftr p2 shift) 0x03 in
  read_at weight (bits0 + Z.shiftl bits2 2).

Definition palette_a1 (i : Z) : Z :=
  Z.land (Z.shiftr i 3) 0x1c + Z.land i 0x03 + 0x20.

Definition palette_a2 (i : Z) : Z :=
  Z.land (Z.shiftr i 0) 0x1c + Z.land i 0x03.

(** Body of the first loop: indirect colour [i]. *)
Definition palette_color (weight prom : list Z) (i : Z) : option palette_call :=
  let a1 := palette_a1 i in
  let a2 := palette_a2 i in
  r ← palette_component weight prom a1 a2 0;
  g ← palette_component weight prom a1 a2 2;
  b ← palette_component weight prom a1 a2 4;
  Some (set_indirect_color i (to_u8 r) (to_u8 g) (to_u8 b)).

(** Body of the characters loop. *)
Definition palette_char_pen (i : Z) : palette_call := set_pen_indirect i i.

(** Body of the sprites loop, after [prom += 0x40]. *)
Definition palette_sprite_pen (prom : list Z) (i : Z) : option palette_call :=
  e ← read_at prom (0x40 + Z.land i 0x1f);
  let ctabentry :=
    if to_bool (Z.land i 0x20)
    then to_u8 (Z.shiftr e 4)      (* high 4 bits are for sprite color n + 8 *)
    else to_u8 (Z.land e 0x0f) in  (* low 4 bits are for sprite color n *)
  Some (set_pen_indirect (i + 0x100)
          (ctabentry + Z.shiftl (Z.land ctabentry 0x0c) 3)).

Definition upto (n : nat) : list Z := map Z.of_nat (seq 0 n).

(** [mrdo_state::palette], from [u8 const *prom] on. *)
Definition palette (weight prom : list Z) : option (list palette_call) :=
  colors ← mapM (palette_color weight prom) (upto 0x100);
  sprites ← mapM (palette_sprite_pen prom) (upto 0x40);
  Some (colors ++ map palette_char_pen (upto 0x100) ++ sprites).

(** The inputs of the protection PAL for which some product term is true,
    up to the unused pin. *)
Definition pal_keys : list (Z * Z) :=
  [(0xa1, 0xc1); (0x32, 0xfb); (0xc9, 0x97); (0x6b, 0xbf)].

Definition pal_table (d : Z) : Z :=
  default 0xff (snd <$> find (fun kv => Z.land d 0xfb =? fst kv) pal_keys).

(** The latch followed on its own: what each access does to it on a
    protected (mrdot) machine, without the rest of the state. *)
Definition latch_track (latch : Z) (op : bus_op) : Z :=
  match op with
  | op_fieldram_w _ _ d | op_colorram_w _ _ d => pal_output d
  | op_reset => 0xff
  | op_protection_r _ | op_cpu_HL _ => latch
  end.

(** A sprite RAM laid out from its 4-byte entries, and what
    [draw_sprites] makes of one entry. *)
Definition sprite_entry : Type := (Z * Z * Z * Z)%type.

Definition entry_bytes (e : sprite_entry) : list Z :=
  let '(b0, b1, b2, b3) := e in [b0; b1; b2; b3].

Definition sprite_ram (entries : list sprite_entry) : list Z :=
  concat (map entry_bytes entries).

Definition entry_call (e : sprite_entry) : list video_call :=
  let '(b0, b1, b2, b3) := e in
  if b1 =? 0 then []
  else [transpen 2 b0 (to_u8 (Z.land b2 0xf)) (to_bool (BIT b2 4))
                 (to_bool (BIT b2 5)) b3 (256 - b1) 0].

Definition is_byte (x : Z) : Prop := 0 <= x < 256.

(** Both video RAM arrays have their two banks of 0x400 bytes. *)
Definition ram_wf (ram : list (list Z)) : Prop :=
  length ram = 2%nat /\ Forall (fun bank => length bank = 0x400%nat) ram.

End MrdoVideo.

(** * Part IV: the rest of docastle.cpp - video, inputs, sprites, ADPCM *)

Module DocastleVideo.
Import Docastle.

(** What the three resistor networks are given for one PROM byte:
    [combine_weights(rweights, bit0, bit1, bit2)] and so on.  The
    resistor weights are floating-point values computed by the host and
    are not modelled; a colour is identified by the bits that select it. *)
Record rgb_bits : Type := mk_rgb_bits {
  red_bits   : bool * bool * bool;
  green_bits : bool * bool * bool;
  blue_bits  : bool * bool
}.

(** Calls into the tilemap, screen, gfx, palette and input collaborators. *)
Inductive video_call : Type :=
| mark_tile_dirty (offset : nat)              (* m_tilemap->mark_tile_dirty(offset) *)
| flip_screen_set (flip : bool)               (* flip_screen_set(...) *)
| inp_write_s (chip : nat) (value : Z)        (* m_inp[chip]->write_s(value) *)
| priority_fill (value : Z)                   (* screen.priority().fill(value) *)
| prio_transmask (gfx : nat) (code color : Z) (flipx flipy : bool)
                 (xpos ypos : Z) (pmask trans_mask : Z)
| set_pen_color (pen : Z) (color : rgb_bits).

Record video_ram : Type := mk_video_ram {
  m_videoram : list Z;      (* 0x400 bytes *)
  m_colorram : list Z       (* 0x400 bytes *)
}.

(** [docastle_state::videoram_w] *)
Definition videoram_w (offset : nat) (data : Z) (v : video_ram)
  : video_ram * list video_call :=
  (mk_video_ram (<[offset := data]> (m_videoram v)) (m_colorram v),
   [mark_tile_dirty offset]).

(** [docastle_state::colorram_w] *)
Definition colorram_w (offset : nat) (data : Z) (v : video_ram)
  : video_ram * list video_call :=
  (mk_video_ram (m_videoram v) (<[offset := data]> (m_colorram v)),
   [mark_tile_dirty offset]).

(** The arguments of [tileinfo.set]. *)
Record tile_data : Type := mk_tile_data {
  tile_gfx   : nat;
  tile_code  : Z;
  tile_color : Z;
  tile_flags : Z
}.

(** [docastle_state::get_tile_info] *)
Definition get_tile_info (tile_index : nat) (v : video_ram) : tile_data :=
  let code := to_u16 (Z.lor (buffer_at (m_videoram v) tile_index)
                            (Z.shiftl (BIT (buffer_at (m_colorram v) tile_index) 5) 8)) in
  let color := to_u8 (Z.land (buffer_at (m_colorram v) tile_index) 0x1f) in
  mk_tile_data 0 code color 0.

(** [docastle_state::inputs_flipscreen_r].  [side_effects_disabled] is
    [machine().side_effects_disabled()]; [inp0_h] and [inp1_h] are what
    [m_inp[0]->read_h()] and [m_inp[1]->read_h()] return. *)
Definition inputs_flipscreen_r (side_effects_disabled : bool) (inp0_h inp1_h : Z)
           (offset : Z) : Z * list video_call :=
  let buf := 0xff in
  if negb side_effects_disabled then
    (* inputs pass through LS244 non-inverting buffer *)
    let buf := to_u8 (Z.lor (Z.shiftl inp1_h 4) inp0_h) in
    (* LS273 latches address bits on rising edge of address decode *)
    (buf, [flip_screen_set (to_bool (BIT offset 7));
           inp_write_s 0 (Z.land offset 7);
           inp_write_s 1 (Z.land offset 7)])
  else (buf, []).

(** [docastle_state::flipscreen_w] *)
Definition flipscreen_w (offset : Z) (data : Z) : list video_call :=
  [flip_screen_set (to_bool (BIT offset 7))].

(** The two pens written for PROM entry [i] in [docastle_state::palette]. *)
Definition pen_low (i : Z) : Z :=
  Z.lor (Z.lor (Z.shiftl (Z.land i 0xf8) 1) 0x00) (Z.land i 0x07).

Definition pen_high (i : Z) : Z :=
  Z.lor (Z.lor (Z.shiftl (Z.land i 0xf8) 1) 0x08) (Z.land i 0x07).

Definition prom_color (p : Z) : rgb_bits :=
  mk_rgb_bits (to_bool (BIT p 7), to_bool (BIT p 6), to_bool (BIT p 5))
              (to_bool (BIT p 4), to_bool (BIT p 3), to_bool (BIT p 2))
              (to_bool (BIT p 1), to_bool (BIT p 0)).

(** Body of the loop of [docastle_state::palette]. *)
Definition palette_entry (prom : list Z) (i : Z) : option (list video_call) :=
  p ← read_at prom i;
  Some [set_pen_color (pen_low i) (prom_color p);
        set_pen_color (pen_high i) (prom_color p)].

(** [docastle_state::palette] *)
Definition palette (prom : list Z) : option (list video_call) :=
  entries ← mapM (palette_entry prom) (MrdoVideo.upto 0x100);
  Some (concat entries).

Definition call_pen (c : video_call) : Z :=
  match c with set_pen_color pen _ => pen | _ => -1 end.

(** The PROM entry a pen takes its colour from. *)
Definition pen_source (pen : Z) : Z :=
  Z.lor (Z.land (Z.shiftr pen 1) 0xf8) (Z.land pen 0x07).

(** [idsoccer_state::extend_sprite]: the three reference arguments in,
    their new values out. *)
Definition extend_sprite (flipy : bool) (code color : Z) : bool * Z * Z :=
  let code := to_u16 (Z.lor code (Z.shiftl (BIT color 4) 8)) in
  let color := to_u8 (Z.land color (Z.lnot (Z.shiftl 1 4))) in
  let code := to_u16 (Z.lor code (Z.shiftl (Z.b2z flipy) 9)) in
  let flipy := false in
  (flipy, code, color).

(** One iteration of the loop of [docastle_state::draw_sprites].  The
    source takes [src = &m_spriteram[offs]] and then reads
    [src[offs + k]], which is [m_spriteram[offs + (offs + k)]]. *)
Definition draw_sprite (flip_screen : bool) (m_spriteram : list Z) (offs : Z)
  : option (list video_call) :=
  src1 ← read_at m_spriteram (offs + (offs + 1));
  let xpos := Z.land (src1 + 8) 0xff - 8 in
  src0 ← read_at m_spriteram (offs + offs);
  let ypos := src0 - 32 in
  attr ← read_at m_spriteram (offs + (offs + 2));
  let flipx := to_bool (BIT attr 6) in
  let flipy := to_bool (BIT attr 7) in
  let color := to_u8 (Z.land attr 0x1f) in
  src3 ← read_at m_spriteram (offs + (offs + 3));
  let code := to_u16 src3 in
  let '(xpos, ypos, flipx, flipy) :=
    if flip_screen
    then (240 - xpos, 176 - ypos, negb flipx, negb flipy)
    else (xpos, ypos, flipx, flipy) in
  Some [ (* first draw the sprite, visible *)
         prio_transmask 1 code color flipx flipy xpos ypos 0x00 0x80ff;
         (* then draw the mask, behind the background but obscuring
            following sprites *)
         prio_transmask 1 code color flipx flipy xpos ypos 0x02 0x7fff ].

(** [docastle_state::draw_sprites] *)
Definition draw_sprites (flip_screen : bool) (m_spriteram : list Z)
  : option (list video_call) :=
  let start := Z.of_nat (length m_spriteram) - 4 in
  rest ← loop_offs_down (draw_sprite flip_screen m_spriteram)
                        (Z.to_nat (start + 4)) start;
  Some (priority_fill 1 :: rest).

(** One cell of a latch buffer followed on its own through an access:
    cell [i] of [m_buffer1] (written by CPU A) and of [m_buffer0]
    (written by CPU B). *)
Definition track_buffer1 (i : nat) (cell : Z) (op : bus_op) : Z :=
  match op with
  | op_cpu1_latch_w o d => if (o =? i)%nat then d else cell
  | _ => cell
  end.

Definition track_buffer0 (i : nat) (cell : Z) (op : bus_op) : Z :=
  match op with
  | op_cpu2_latch_w o d => if (o =? i)%nat then d else cell
  | _ => cell
  end.

(** Rising edges of a sampled bit sequence, given the bit before it. *)
Fixpoint rising (prev : bool) (bits : list bool) : list bool :=
  match bits with
  | [] => []
  | b :: rest => (b && negb prev) :: rising b rest
  end.

Definition irq_if (fire : bool) : list host_call :=
  if fire then [set_input_line 1 INPUT_LINE_IRQ0 HOLD_LINE] else [].

(** The palette calls for PROM entry [i] when the read is in range, and
    the pens written over the whole loop. *)
Definition entry_calls (prom : list Z) (i : Z) : list video_call :=
  [set_pen_color (pen_low i) (prom_color (default 0 (read_at prom i)));
   set_pen_color (pen_high i) (prom_color (default 0 (read_at prom i)))].

Definition all_pens : list Z :=
  concat (map (fun i => [pen_low i; pen_high i]) (MrdoVideo.upto 0x100)).

End DocastleVideo.

Module Idsoccer.

(** Calls into the MSM5205. *)
Inductive msm_call : Type :=
| msm_reset_w (line : Z)      (* m_msm->reset_w(line) *)
| msm_data_w (data : Z).      (* m_msm->data_w(data) *)

(** The members [idsoccer_state] adds to [docastle_state]. *)
Record adpcm_state : Type := mk_adpcm_state {
  m_adpcm_pos    : Z;     (* int m_adpcm_pos *)
  m_adpcm_idle   : Z;     (* int m_adpcm_idle *)
  m_adpcm_data   : Z;     (* int m_adpcm_data *)
  m_adpcm_status : Z      (* int m_adpcm_status *)
}.

(** [idsoccer_state::machine_reset], after the base class reset. *)
Definition machine_reset (a : adpcm_state) : adpcm_state :=
  mk_adpcm_state 0 0 (-1) 0.

(** [idsoccer_state::adpcm_int].  [m_adpcm] is the ADPCM ROM region;
    [None] is a read outside it.  The source compares the [int] position
    with the unsigned size of the region; the position is never negative,
    so this is the comparison of the two numbers. *)
Definition adpcm_int (m_adpcm : list Z) (state : Z) (a : adpcm_state)
  : option (adpcm_state * list msm_call) :=
  if Z.of_nat (length m_adpcm) <=? m_adpcm_pos a then
    Some (mk_adpcm_state (m_adpcm_pos a) 1 (m_adpcm_data a) (m_adpcm_status a),
          [msm_reset_w 1])
  else if negb (m_adpcm_data a =? -1) then
    Some (mk_adpcm_state (m_adpcm_pos a) (m_adpcm_idle a) (-1) (m_adpcm_status a),
          [msm_data_w (to_u8 (Z.land (m_adpcm_data a) 0x0f))])
  else
    byte ← read_at m_adpcm (m_adpcm_pos a);
    Some (mk_adpcm_state (m_adpcm_pos a + 1) (m_adpcm_idle a) byte (m_adpcm_status a),
          [msm_data_w (to_u8 (Z.shiftr byte 4))]).

(** [idsoccer_state::adpcm_status_r]: this is wrong, but the samples work
    anyway!! *)
Definition adpcm_status_r (a : adpcm_state) : Z * adpcm_state :=
  let status := Z.lxor (m_adpcm_status a) 0x80 in
  (to_u8 status,
   mk_adpcm_state (m_adpcm_pos a) (m_adpcm_idle a) (m_adpcm_data a) status).

(** [idsoccer_state::adpcm_w] *)
Definition adpcm_w (data : Z) (a : adpcm_state) : adpcm_state * list msm_call :=
  if to_bool (BIT data 7) then
    (mk_adpcm_state (m_adpcm_pos a) 1 (m_adpcm_data a) (m_adpcm_status a),
     [msm_reset_w 1])
  else
    (mk_adpcm_state (Z.land data 0x7f * 0x200) 0 (m_adpcm_data a) (m_adpcm_status a),
     [msm_reset_w 0]).

(** The MSM5205's clock ticking [n] times. *)
Fixpoint adpcm_ints (m_adpcm : list Z) (n : nat) (a : adpcm_state)
  : option (adpcm_state * list msm_call) :=
  match n with
  | O => Some (a, [])
  | S n' =>
      r ← adpcm_int m_adpcm 1 a;
      r' ← adpcm_ints m_adpcm n' r.1;
      Some (r'.1, r.2 ++ r'.2)
  end.

(** The two nibbles of each byte, high nibble first. *)
Definition nibble_calls (bytes : list Z) : list msm_call :=
  concat (map (fun b => [msm_data_w (to_u8 (Z.shiftr b 4));
                         msm_data_w (to_u8 (Z.land b 0x0f))]) bytes).

(** What the sound CPU side and the MSM5205 can do to the ADPCM state. *)
Inductive adpcm_op : Type :=
| op_adpcm_w (data : Z)
| op_adpcm_status_r
| op_adpcm_int (state : Z)
| op_adpcm_reset.

Definition adpcm_step (m_adpcm : list Z) (a : adpcm_state) (op : adpcm_op)
  : option adpcm_state :=
  match op with
  | op_adpcm_w d => Some (adpcm_w d a).1
  | op_adpcm_status_r => Some (adpcm_status_r a).2
  | op_adpcm_int st => fst <$> adpcm_int m_adpcm st a
  | op_adpcm_reset => Some (machine_reset a)
  end.

Fixpoint adpcm_run (m_adpcm : list Z) (ops : list adpcm_op) (a : adpcm_state)
  : option adpcm_state :=
  match ops with
  | [] => Some a
  | op :: rest => a' ← adpcm_step m_adpcm a op; adpcm_run m_adpcm rest a'
  end.

(** What holds of the ADPCM state from a reset on. *)
Definition adpcm_inv (a : adpcm_state) : Prop :=
  0 <= m_adpcm_pos a /\
  (m_adpcm_data a = -1 \/ MrdoVideo.is_byte (m_adpcm_data a)) /\
  (m_adpcm_status a = 0 \/ m_adpcm_status a = 0x80).

End Idsoccer.

(** * Part V: properties of the protection replica *)

(** ** Bit-level facts *)

Lemma BIT_testbit (x n : Z) : 0 <= n -> BIT x n = Z.b2z (Z.testbit x n).
Proof.
  intros Hn. unfold BIT.
  change 1 with (Z.ones 1). rewrite Z.land_ones by lia.
  change (2 ^ 1) with 2. rewrite <- Z.bit0_mod.
  rewrite Z.shiftr_spec by lia. reflexivity.
Qed.

Lemma BIT_cases (x n : Z) : 0 <= n -> BIT x n = 0 \/ BIT x n = 1.
Proof.
  intros Hn. rewrite BIT_testbit by assumption.
  destruct (Z.testbit x n); [right | left]; reflexivity.
Qed.

(** An exhaustive check over the 256 byte values decides a property of
    every byte. *)
Lemma byte_forall (P : Z -> bool) :
  forallb P (map Z.of_nat (seq 0 256)) = true ->
  forall d, 0 <= d < 256 -> P d = true.
Proof.
  intros Hall d Hd.
  rewrite forallb_forall in Hall. apply Hall.
  apply in_map_iff. exists (Z.to_nat d). split; [lia |].
  apply in_seq. lia.
Qed.

(** Flipping bit 2 leaves every other bit as it was. *)
Lemma lxor_4_testbit (d k : Z) : k <> 2 -> Z.testbit d k = Z.testbit (Z.lxor d 4) k.
Proof.
  intros Hk. rewrite Z.lxor_spec.
  destruct (Z.ltb_spec k 0) as [Hneg | Hpos].
  - rewrite !Z.testbit_neg_r by assumption. reflexivity.
  - change 4 with (2 ^ 2). rewrite Z.pow2_bits_eqb by lia.
    destruct (Z.eqb_spec 2 k); [lia |]. rewrite xorb_false_r. reflexivity.
Qed.

Module MrdoSpec.
Import Mrdo.

Lemma latch_after_clock (d : Z) (s : mrdo_state) :
  m_pal_u001 (mrdot_state_update_protection d s) = pal_output d.
Proof. reflexivity. Qed.

Lemma clock_frame (d : Z) (s : mrdo_state) :
  mrdot_state_update_protection d s = set_pal_u001 (pal_output d) s.
Proof. reflexivity. Qed.

Lemma pal_output_truth_table :
  forallb (fun d => pal_output d =? documented_latch d)
          (map Z.of_nat (seq 0 256)) = true.
Proof. vm_compute. reflexivity. Qed.

(** Case split on one input pin of the PAL. *)
Ltac case_pin d k :=
  let H := fresh "Hpin" in
  destruct (BIT_cases d k ltac:(lia)) as [H | H]; rewrite H; clear H.

(** Bits 0 and 7 of the latched byte, for any clocked data. *)
Lemma pal_output_fixed_bits (d : Z) : Z.land (pal_output d) 0x81 = 0x81.
Proof.
  unfold pal_output, mrdot_state_update_protection.
  case_pin d 0; case_pin d 1; case_pin d 3; case_pin d 4;
  case_pin d 5; case_pin d 6; case_pin d 7; reflexivity.
Qed.

(** *** Frame and invariants of the handlers *)

Lemma protection_w_config (d : Z) (s : mrdo_state) :
  dyn_class (protection_w d s) = dyn_class s /\
  m_pal_enabled (protection_w d s) = m_pal_enabled s /\
  m_bypass_pal (protection_w d s) = m_bypass_pal s.
Proof.
  unfold protection_w, update_protection.
  destruct (m_pal_enabled s) eqn:He; [| rewrite He; repeat split].
  destruct (dyn_class s) eqn:Hc;
    unfold mrdo_state_update_protection, mrdot_state_update_protection;
    simpl; rewrite ?He, ?Hc; repeat split.
Qed.

Lemma step_config (s : mrdo_state) (op : bus_op) :
  dyn_class (step s op) = dyn_class s /\
  m_pal_enabled (step s op) = m_pal_enabled s /\
  m_bypass_pal (step s op) = m_bypass_pal s.
Proof.
  destruct op as [w o d | w o d | sp | hl |]; simpl;
    try (repeat split; reflexivity).
  - unfold fieldram_w. destruct (negb _);
      match goal with
      | |- context [protection_w d ?x] =>
          destruct (protection_w_config d x) as (-> & -> & ->)
      end; repeat split.
  - unfold colorram_w. destruct (negb _);
      match goal with
      | |- context [protection_w d ?x] =>
          destruct (protection_w_config d x) as (-> & -> & ->)
      end; repeat split.
Qed.

Lemma run_config (ops : list bus_op) (s : mrdo_state) :
  dyn_class (run ops s) = dyn_class s /\
  m_pal_enabled (run ops s) = m_pal_enabled s /\
  m_bypass_pal (run ops s) = m_bypass_pal s.
Proof.
  revert s. induction ops as [| op ops IH]; intros s; simpl.
  - repeat split.
  - destruct (IH (step s op)) as (Hc & He & Hb).
    destruct (step_config s op) as (Hc' & He' & Hb').
    unfold run in *. rewrite Hc, He, Hb, Hc', He', Hb'. repeat split.
Qed.

(** The latch after a TVRAM write is the old latch or the PAL output. *)
Lemma protection_w_latch (d : Z) (s : mrdo_state) :
  m_pal_u001 (protection_w d s) = m_pal_u001 s \/
  (dyn_class s = mrdot_state_class /\
   m_pal_u001 (protection_w d s) = pal_output d).
Proof.
  unfold protection_w, update_protection.
  destruct (m_pal_enabled s); [| left; reflexivity].
  destruct (dyn_class s); [left | right; split]; reflexivity.
Qed.

Lemma step_latch (s : mrdo_state) (op : bus_op) :
  m_pal_u001 (step s op) = m_pal_u001 s \/
  m_pal_u001 (step s op) = 0xff \/
  (dyn_class s = mrdot_state_class /\
   exists d, m_pal_u001 (step s op) = pal_output d).
Proof.
  destruct op as [w o d | w o d | sp | hl |]; simpl.
  - unfold fieldram_w.
    destruct (negb _);
      match goal with
      | |- context [protection_w d ?x] =>
          destruct (protection_w_latch d x) as [E | [Hc E]]
      end; rewrite E; eauto.
  - unfold colorram_w.
    destruct (negb _);
      match goal with
      | |- context [protection_w d ?x] =>
          destruct (protection_w_latch d x) as [E | [Hc E]]
      end; rewrite E; eauto.
  - left; reflexivity.
  - left; reflexivity.
  - right; left; reflexivity.
Qed.

Lemma run_latch_ok (ops : list bus_op) (s : mrdo_state) :
  latch_ok s -> latch_ok (run ops s).
Proof.
  revert s. induction ops as [| op ops IH]; intros s Hs; simpl; [exact Hs |].
  apply IH. unfold latch_ok.
  destruct (step_latch s op) as [E | [E | (_ & d & E)]]; rewrite E; eauto.
Qed.

Lemma latch_ok_fixed_bits (s : mrdo_state) :
  latch_ok s -> Z.land (m_pal_u001 s) 0x81 = 0x81.
Proof.
  intros [E | [d E]]; rewrite E; [reflexivity | apply pal_output_fixed_bits].
Qed.

(** On the base class the latch never leaves its reset value. *)
Lemma run_latch_base (ops : list bus_op) (s : mrdo_state) :
  dyn_class s = mrdo_state_class ->
  m_pal_u001 s = 0xff ->
  m_pal_u001 (run ops s) = 0xff.
Proof.
  revert s. induction ops as [| op ops IH]; intros s Hc Hs; simpl; [exact Hs |].
  apply IH.
  - destruct (step_config s op) as (-> & _ & _). exact Hc.
  - destruct (step_latch s op) as [E | [E | (Hm & _)]]; congruence.
Qed.

(** *** The claims *)

(** C1.  For every 8-bit input [d], clocking the protection-enabled
    (mrdot) replica with [update_protection d] and then reading the latch
    gives exactly the value of the documented sum-of-products equations:
    the latch field, and what [protection_r] returns after the TVRAM
    write, both equal [documented_latch d]. *)
Theorem update_protection_truth_table
    (space : address_space) (s : mrdo_state) (d : Z) :
  0 <= d < 256 ->
  dyn_class s = mrdot_state_class ->
  m_bypass_pal s = false ->
  m_pal_enabled s = true ->
  m_pal_u001 (update_protection d s) = documented_latch d /\
  protection_r space (update_protection d s) = documented_latch d /\
  protection_r space (protection_w d s) = documented_latch d.
Proof.
  intros Hd Hc Hb He.
  assert (Hout : pal_output d = documented_latch d).
  { apply Z.eqb_eq.
    apply (byte_forall (fun d => pal_output d =? documented_latch d));
      [exact pal_output_truth_table | exact Hd]. }
  unfold protection_w, protection_r, update_protection.
  rewrite He, Hc. simpl. rewrite He, Hb.
  repeat split; exact Hout.
Qed.

Lemma update_protection_truth_table_witness :
  m_pal_u001 (update_protection 0xa1 (machine_reset (build GAME_mrdot []))) = 0xc1.
Proof.
  destruct (update_protection_truth_table sample_space
              (machine_reset (build GAME_mrdot [])) 0xa1) as [H _];
    [lia | reflexivity | reflexivity | reflexivity |].
  rewrite H. reflexivity.
Defined.

(** C4.  For every pair of 8-bit inputs [d], [d'] that differ only in
    bit 2, clocking the replica with [d] and with [d'] stores the same
    latch value (the whole resulting state is the same); in particular
    flipping bit 2 of any input never changes the outcome. *)
Theorem update_protection_ignores_bit2 (s : mrdo_state) (d d' : Z) :
  0 <= d < 256 ->
  0 <= d' < 256 ->
  (forall k, k <> 2 -> Z.testbit d k = Z.testbit d' k) ->
  mrdot_state_update_protection d s = mrdot_state_update_protection d' s /\
  update_protection d s = update_protection d' s /\
  m_pal_u001 (update_protection d s) = m_pal_u001 (update_protection d' s).
Proof.
  intros _ _ Hbits.
  assert (Hpin : forall k, 0 <= k -> k <> 2 -> BIT d k = BIT d' k).
  { intros k Hk Hk2. rewrite !BIT_testbit by assumption.
    rewrite (Hbits k Hk2). reflexivity. }
  assert (Hsame : mrdot_state_update_protection d s
                  = mrdot_state_update_protection d' s).
  { unfold mrdot_state_update_protection.
    rewrite (Hpin 0), (Hpin 1), (Hpin 3), (Hpin 4), (Hpin 5), (Hpin 6), (Hpin 7)
      by lia.
    reflexivity. }
  assert (Hdisp : update_protection d s = update_protection d' s).
  { unfold update_protection. destruct (dyn_class s); [reflexivity | exact Hsame]. }
  split; [exact Hsame |]. split; [exact Hdisp |]. rewrite Hdisp. reflexivity.
Qed.

Lemma update_protection_ignores_bit2_witness :
  m_pal_u001 (update_protection 0xa1 (mrdot_state_ctor []))
  = m_pal_u001 (update_protection 0xa5 (mrdot_state_ctor [])).
Proof.
  apply (update_protection_ignores_bit2 (mrdot_state_ctor []) 0xa1 0xa5).
  - lia.
  - lia.
  - intros k Hk. change 0xa5 with (Z.lxor 0xa1 4).
    apply lxor_4_testbit. exact Hk.
Defined.

(** C9.  Invariant of the protection-enabled (mrdot) replica: bits 0 and
    7 of the output latch are always 1.  The reset value satisfies it,
    the value stored by [update_protection d] satisfies
    [(value AND 0x81) = 0x81] for every 8-bit [d], and so does the latch
    after any sequence of accesses following a reset. *)
Theorem latch_bits_0_7_always_set (s : mrdo_state) (d : Z) (ops : list bus_op) :
  0 <= d < 256 ->
  dyn_class s = mrdot_state_class ->
  Z.land (m_pal_u001 (machine_reset s)) 0x81 = 0x81 /\
  Z.land (m_pal_u001 (update_protection d s)) 0x81 = 0x81 /\
  Z.land (m_pal_u001 (run ops (machine_reset s))) 0x81 = 0x81.
Proof.
  intros _ Hc. split; [reflexivity |]. split.
  - unfold update_protection. rewrite Hc.
    rewrite latch_after_clock. apply pal_output_fixed_bits.
  - apply latch_ok_fixed_bits, run_latch_ok. left; reflexivity.
Qed.

Lemma latch_bits_0_7_always_set_witness :
  Z.land (m_pal_u001 (run [op_fieldram_w 0 0 0xa1; op_colorram_w 1 3 0x32]
                          (machine_reset (build GAME_mrdot [])))) 0x81 = 0x81.
Proof.
  apply (latch_bits_0_7_always_set (build GAME_mrdot []) 0xa1
           [op_fieldram_w 0 0 0xa1; op_colorram_w 1 3 0x32]).
  - lia.
  - reflexivity.
Defined.

(** C10.  In the base mrdo variant (the non-mrdot class, built with the
    bypass flag true) the clock operation is a no-op: for every data byte
    [update_protection] and [protection_w] return the state they were
    given, so after a reset the latch stays at 0xff through every
    sequence of accesses, whatever data the TVRAM writes carry. *)
Theorem base_variant_clock_is_noop (s : mrdo_state) (data : Z) (ops : list bus_op) :
  dyn_class s = mrdo_state_class ->
  update_protection data s = s /\
  protection_w data s = s /\
  m_pal_u001 (run ops (machine_reset s)) = 0xff /\
  (forall rom, dyn_class (build GAME_mrdo rom) = mrdo_state_class /\
               m_bypass_pal (build GAME_mrdo rom) = true).
Proof.
  intros Hc.
  assert (Hup : update_protection data s = s).
  { unfold update_protection. rewrite Hc. reflexivity. }
  split; [exact Hup |]. split.
  { unfold protection_w. rewrite Hup. destruct (m_pal_enabled s); reflexivity. }
  split; [| intros rom; split; reflexivity].
  apply run_latch_base; [exact Hc | reflexivity].
Qed.

Lemma base_variant_clock_is_noop_witness :
  m_pal_u001 (run [op_fieldram_w 0 0 0xa1; op_colorram_w 1 3 0x32]
                  (machine_reset (build GAME_mrdo []))) = 0xff.
Proof.
  apply (base_variant_clock_is_noop (build GAME_mrdo []) 0xa1
           [op_fieldram_w 0 0 0xa1; op_colorram_w 1 3 0x32]).
  reflexivity.
Defined.

(** C2, as stated, fails.  On the unprotected set (enabled flag false,
    bypass flag true) with HL = 1 and ROM byte 0xa5 at offset 1, the read
    of the protection address returns the open-bus value 0 of the address
    space, not the ROM byte. *)
Lemma protection_r_disabled_not_rom :
  m_pal_enabled mrlo_sample = false /\
  m_bypass_pal mrlo_sample = true /\
  rom_at (maincpu_rom mrlo_sample) (maincpu_HL mrlo_sample) = 0xa5 /\
  protection_r sample_space mrlo_sample = 0 /\
  protection_r sample_space mrlo_sample
    <> rom_at (maincpu_rom mrlo_sample) (maincpu_HL mrlo_sample).
Proof.
  repeat split; try reflexivity. vm_compute. discriminate.
Qed.

(** C2, amended.  With the enabled flag false every read of the
    protection address returns the address space's unmapped (open-bus)
    value, narrowed to a byte, whatever the bypass flag, the ROM, HL and
    the latch hold; the mrlo set runs in that mode, with the bypass flag
    true, through every sequence of accesses.  The ROM byte at the offset
    held in HL is what the read returns when the enabled flag is true and
    the bypass flag is true. *)
Theorem protection_r_by_mode
    (space : address_space) (s : mrdo_state) (rom : list Z) (ops : list bus_op) :
  (m_pal_enabled s = false ->
   protection_r space s = Z.land (unmap space) 0xff /\
   0 <= protection_r space s < 256) /\
  (m_pal_enabled s = true -> m_bypass_pal s = true ->
   protection_r space s = rom_at (maincpu_rom s) (maincpu_HL s)) /\
  (let m := run ops (machine_reset (build GAME_mrlo rom)) in
   m_pal_enabled m = false /\ m_bypass_pal m = true /\
   protection_r space m = Z.land (unmap space) 0xff).
Proof.
  split; [| split].
  - intros He. unfold protection_r. rewrite He. unfold to_u8.
    split; [reflexivity |].
    change 255 with (Z.ones 8). rewrite Z.land_ones by lia.
    apply Z.mod_pos_bound. lia.
  - intros He Hb. unfold protection_r. rewrite He, Hb. reflexivity.
  - destruct (run_config ops (machine_reset (build GAME_mrlo rom)))
      as (_ & He & Hb).
    cbv zeta. unfold protection_r. rewrite He, Hb. repeat split.
Qed.

Lemma protection_r_by_mode_witness :
  protection_r {| unmap := 0x1a5 |} mrlo_sample = 0xa5 /\
  protection_r sample_space (set_HL 1 (machine_reset (build GAME_mrdo [0x3e; 0xa5; 0xc9])))
  = 0xa5.
Proof.
  split.
  - apply (proj1 (proj1 (protection_r_by_mode {| unmap := 0x1a5 |} mrlo_sample [] [])
                        eq_refl)).
  - apply (proj1 (proj2 (protection_r_by_mode sample_space
             (set_HL 1 (machine_reset (build GAME_mrdo [0x3e; 0xa5; 0xc9]))) [] [])));
      reflexivity.
Defined.

End MrdoSpec.

(** * Part VI: properties of the latch bridge and the raster interrupt *)

Module DocastleSpec.
Import Docastle.

(** *** The buffers keep their nine cells *)

Lemma step_wf (op : bus_op) (s : docastle_state) : wf s -> wf (step op s).1.
Proof.
  intros [H0 H1]. unfold wf.
  destruct op as [o | o d | o | o d | d | ma st]; simpl;
    rewrite ?length_insert; try (split; assumption).
  unfold tint. destruct (to_bool st); simpl; split; assumption.
Qed.

Lemma run_wf (ops : list bus_op) (s : docastle_state) : wf s -> wf (run ops s).
Proof.
  revert s. induction ops as [| op ops IH]; intros s Hs; simpl; [exact Hs |].
  apply IH, step_wf, Hs.
Qed.

Lemma machine_reset_wf (s : docastle_state) : wf s -> wf (machine_reset s).
Proof.
  intros [H0 H1]. unfold wf, machine_reset. simpl.
  rewrite !length_replicate. split; assumption.
Qed.

(** *** Writing a message cell by cell *)

Lemma write_from_length (bs : list Z) (k : nat) (s : docastle_state) :
  length (m_buffer1 (write_from k bs s)) = length (m_buffer1 s).
Proof.
  revert k s. induction bs as [| b bs IH]; intros k s; simpl; [reflexivity |].
  rewrite IH. simpl. apply length_insert.
Qed.

Lemma write_from_below (bs : list Z) (k i : nat) (s : docastle_state) :
  (i < k)%nat ->
  m_buffer1 (write_from k bs s) !! i = m_buffer1 s !! i.
Proof.
  revert k s. induction bs as [| b bs IH]; intros k s Hik; simpl; [reflexivity |].
  rewrite IH by lia. simpl. apply list_lookup_insert_ne. lia.
Qed.

Lemma write_from_at (bs : list Z) (k j : nat) (b : Z) (s : docastle_state) :
  bs !! j = Some b ->
  (k + j < length (m_buffer1 s))%nat ->
  m_buffer1 (write_from k bs s) !! (k + j)%nat = Some b.
Proof.
  revert k j s. induction bs as [| b0 bs IH]; intros k j s Hj Hlen; [discriminate |].
  destruct j as [| j]; simpl in *.
  - injection Hj as ->. rewrite Nat.add_0_r in *.
    rewrite write_from_below by lia. simpl.
    apply list_lookup_insert_eq. exact Hlen.
  - replace (k + S j)%nat with (S k + j)%nat by lia.
    apply IH; [exact Hj |]. simpl. rewrite length_insert. lia.
Qed.

(** Accesses other than CPU A's write to cell [i] leave that cell of the
    outbound buffer alone. *)
Lemma step_buffer1 (op : bus_op) (i : nat) (s : docastle_state) :
  (forall o d, op = op_cpu1_latch_w o d -> o <> i) ->
  m_buffer1 (step op s).1 !! i = m_buffer1 s !! i.
Proof.
  intros Hop.
  destruct op as [o | o d | o | o d | d | ma st]; simpl; try reflexivity.
  - apply list_lookup_insert_ne. exact (Hop o d eq_refl).
  - unfold tint. destruct (to_bool st); reflexivity.
Qed.

Lemma run_buffer1 (ops : list bus_op) (i : nat) (s : docastle_state) :
  (forall o d, In (op_cpu1_latch_w o d) ops -> o <> i) ->
  m_buffer1 (run ops s) !! i = m_buffer1 s !! i.
Proof.
  revert s. induction ops as [| op ops IH]; intros s Hops; simpl; [reflexivity |].
  unfold run in IH. rewrite IH.
  - apply step_buffer1. intros o d ->. apply (Hops o d). left; reflexivity.
  - intros o d Hin. apply (Hops o d). right; exact Hin.
Qed.

(** One hsync sample, with the line asserted. *)
Lemma tint_sample (ma : Z) (s : docastle_state) :
  tint ma 1 s =
  (set_prev_ma6 (to_bool (BIT ma 6)) s,
   if to_bool (BIT ma 6) && negb (m_prev_ma6 s)
   then [set_input_line 1 INPUT_LINE_IRQ0 HOLD_LINE]
   else []).
Proof. reflexivity. Qed.

(** With the hsync line low the callback does nothing: no sample is
    taken. *)
Lemma tint_line_low (ma : Z) (s : docastle_state) : tint ma 0 s = (s, []).
Proof. reflexivity. Qed.

(** *** The claims *)

(** C5.  Latch bridge round trip: for every 9-byte sequence [bs], after
    CPU A has written [bs] cell by cell at offsets 0..8 through
    [cpu1_latch_w], a read by CPU B through [cpu2_latch_r] at offset [i]
    returns exactly the byte written there, for every offset 0..8, after
    any further accesses that do not write that offset again on the A
    side; the read makes no host call. *)
Theorem latch_round_trip
    (s : docastle_state) (bs : list Z) (ops : list bus_op) (i : nat) (b : Z) :
  wf s ->
  length bs = 9%nat ->
  bs !! i = Some b ->
  (forall o d, In (op_cpu1_latch_w o d) ops -> o <> i) ->
  cpu2_latch_r i (run ops (write_from 0 bs s)) = (b, []).
Proof.
  intros [_ H1] Hlen Hb Hops.
  assert (Hi : (i < 9)%nat).
  { rewrite <- Hlen. eapply lookup_lt_Some, Hb. }
  unfold cpu2_latch_r, buffer_at.
  rewrite (run_buffer1 ops i _ Hops).
  pose proof (write_from_at bs 0 i b s Hb) as Hw. simpl in Hw.
  rewrite Hw by (rewrite H1; exact Hi).
  simpl. destruct (i =? 8)%nat; reflexivity.
Qed.

Lemma latch_round_trip_witness :
  cpu2_latch_r 8
    (run [op_cpu2_latch_r 0; op_cpu2_latch_w 8 0x55; op_cpu1_latch_w 2 0x77]
         (write_from 0 [1; 2; 3; 4; 5; 6; 7; 8; 9] docastle_state_ctor))
  = (9, []).
Proof.
  apply (latch_round_trip docastle_state_ctor [1; 2; 3; 4; 5; 6; 7; 8; 9]
           [op_cpu2_latch_r 0; op_cpu2_latch_w 8 0x55; op_cpu1_latch_w 2 0x77] 8 9).
  - split; reflexivity.
  - reflexivity.
  - reflexivity.
  - intros o d [H | [H | [H | []]]]; try discriminate.
    injection H as <- _. lia.
Defined.

(** C6.  Raster edge detection.  At a horizontal-sync sample (the hsync
    callback with its line asserted) the slave CPU's IRQ line is asserted
    if and only if the sampled MA6 bit is 1 and the stored previous bit is
    0; otherwise no host call is made; the stored previous bit becomes the
    sampled bit in either case and the buffers are untouched.  From the
    reset state, a run of samples whose MA6 bits are [0,0,1,1,0,1] fires
    the interrupt at sample indices 2 and 5 and nowhere else. *)
Theorem tint_rising_edge
    (s : docastle_state) (ma st : Z) (mas : list Z) :
  st <> 0 ->
  map (fun m => BIT m 6) mas = [0; 0; 1; 1; 0; 1] ->
  ((tint ma st s).2 = [set_input_line 1 INPUT_LINE_IRQ0 HOLD_LINE]
   <-> (BIT ma 6 = 1 /\ m_prev_ma6 s = false)) /\
  ((tint ma st s).2 = [] <-> ~ (BIT ma 6 = 1 /\ m_prev_ma6 s = false)) /\
  m_prev_ma6 (tint ma st s).1 = to_bool (BIT ma 6) /\
  m_buffer0 (tint ma st s).1 = m_buffer0 s /\
  m_buffer1 (tint ma st s).1 = m_buffer1 s /\
  m_prev_ma6 (machine_reset s) = false /\
  fired_from 0 (tint_calls mas (machine_reset s)) = [2; 5]%nat.
Proof.
  intros Hst Hmas.
  assert (Hb : to_bool st = true).
  { unfold to_bool. destruct (Z.eqb_spec st 0); [contradiction | reflexivity]. }
  unfold tint. rewrite Hb.
  cbn [fst snd m_prev_ma6 m_buffer0 m_buffer1 set_prev_ma6].
  split; [| split; [| repeat split]].
  - destruct (BIT_cases ma 6 ltac:(lia)) as [-> | ->];
      destruct (m_prev_ma6 s); simpl; intuition congruence.
  - destruct (BIT_cases ma 6 ltac:(lia)) as [-> | ->];
      destruct (m_prev_ma6 s); simpl; intuition congruence.
  - destruct mas as [| a0 [| a1 [| a2 [| a3 [| a4 [| a5 [| a6 rest]]]]]]];
      try discriminate.
    cbn [map] in Hmas.
    injection Hmas as H0 H1 H2 H3 H4 H5.
    cbn [tint_calls]. rewrite !tint_sample.
    rewrite H0, H1, H2, H3, H4, H5. reflexivity.
Qed.

Lemma tint_rising_edge_witness :
  fired_from 0 (tint_calls [0x00; 0x3f; 0x40; 0x7f; 0x80; 0xc0]
                           (machine_reset docastle_state_ctor)) = [2; 5]%nat.
Proof.
  apply (tint_rising_edge docastle_state_ctor 0x40 1
           [0x00; 0x3f; 0x40; 0x7f; 0x80; 0xc0]).
  - lia.
  - reflexivity.
Defined.

(** C7.  For every offset in 0..7 and every data byte, a latch-bridge
    write on either side stores the byte into its cell of that side's
    outbound buffer and changes nothing else, making no host call: no
    suspend, no resume.  A write at offset 8 also stores its byte and
    makes exactly one host call, the suspend of the master CPU on the A
    side and the scheduler trigger on the B side; so a write makes a host
    call exactly when its offset is 8. *)
Theorem latch_write_frame (s : docastle_state) (offset : nat) (data : Z) :
  wf s ->
  (offset <= 8)%nat ->
  (m_buffer1 (cpu1_latch_w offset data s).1 !! offset = Some data /\
   (forall j, j <> offset ->
              m_buffer1 (cpu1_latch_w offset data s).1 !! j = m_buffer1 s !! j) /\
   m_buffer0 (cpu1_latch_w offset data s).1 = m_buffer0 s /\
   m_prev_ma6 (cpu1_latch_w offset data s).1 = m_prev_ma6 s) /\
  (m_buffer0 (cpu2_latch_w offset data s).1 !! offset = Some data /\
   (forall j, j <> offset ->
              m_buffer0 (cpu2_latch_w offset data s).1 !! j = m_buffer0 s !! j) /\
   m_buffer1 (cpu2_latch_w offset data s).1 = m_buffer1 s /\
   m_prev_ma6 (cpu2_latch_w offset data s).1 = m_prev_ma6 s) /\
  ((offset < 8)%nat ->
   (cpu1_latch_w offset data s).2 = [] /\ (cpu2_latch_w offset data s).2 = []) /\
  (offset = 8%nat ->
   (cpu1_latch_w offset data s).2 = [spin_until_trigger 0 500] /\
   (cpu2_latch_w offset data s).2 = [scheduler_trigger 500]) /\
  ((cpu1_latch_w offset data s).2 <> [] <-> offset = 8%nat) /\
  ((cpu2_latch_w offset data s).2 <> [] <-> offset = 8%nat).
Proof.
  intros [H0 H1] Ho. simpl.
  split; [| split; [| split; [| split; [| split]]]].
  - split; [apply list_lookup_insert_eq; lia |].
    split; [| split; reflexivity].
    intros j Hj. apply list_lookup_insert_ne. congruence.
  - split; [apply list_lookup_insert_eq; lia |].
    split; [| split; reflexivity].
    intros j Hj. apply list_lookup_insert_ne. congruence.
  - intros Hlt. destruct (Nat.eqb_spec offset 8); [lia |]. split; reflexivity.
  - intros ->. split; reflexivity.
  - destruct (Nat.eqb_spec offset 8); simpl; split; intros H;
      try assumption; try discriminate; try contradiction.
  - destruct (Nat.eqb_spec offset 8); simpl; split; intros H;
      try assumption; try discriminate; try contradiction.
Qed.

Lemma latch_write_frame_witness :
  (cpu1_latch_w 3 0x42 docastle_state_ctor).2 = [] /\
  (cpu2_latch_w 3 0x42 docastle_state_ctor).2 = [].
Proof.
  apply (latch_write_frame docastle_state_ctor 3 0x42).
  - split; reflexivity.
  - lia.
  - lia.
Defined.

(** C8.  After a machine reset both 9-byte latch buffers hold zero at
    every offset (as arrays and as seen through the read handlers), the
    raster edge detector's previous bit is LOW, and the protection latch
    of the Mr. Do! driver holds 0xff, the 8-bit complement of zero. *)
Theorem machine_reset_state
    (s : docastle_state) (p : Mrdo.mrdo_state) (i : nat) :
  wf s ->
  (i < 9)%nat ->
  m_buffer0 (machine_reset s) = replicate 9 0 /\
  m_buffer1 (machine_reset s) = replicate 9 0 /\
  m_buffer0 (machine_reset s) !! i = Some 0 /\
  m_buffer1 (machine_reset s) !! i = Some 0 /\
  (cpu1_latch_r i (machine_reset s)).1 = 0 /\
  (cpu2_latch_r i (machine_reset s)).1 = 0 /\
  m_prev_ma6 (machine_reset s) = false /\
  Mrdo.m_pal_u001 (Mrdo.machine_reset p) = 0xff /\
  Mrdo.m_pal_u001 (Mrdo.machine_reset p) = to_u8 (Z.lnot 0).
Proof.
  intros [H0 H1] Hi.
  assert (E0 : m_buffer0 (machine_reset s) = replicate 9 0).
  { unfold machine_reset. simpl. rewrite H0. reflexivity. }
  assert (E1 : m_buffer1 (machine_reset s) = replicate 9 0).
  { unfold machine_reset. simpl. rewrite H1. reflexivity. }
  assert (L : replicate 9 0 !! i = Some 0).
  { apply lookup_replicate_2. exact Hi. }
  unfold cpu1_latch_r, cpu2_latch_r, buffer_at.
  rewrite E0, E1, L. repeat split; reflexivity.
Qed.

Lemma machine_reset_state_witness :
  m_buffer0 (machine_reset
               (run [op_cpu2_latch_w 4 0x99; op_tint 0x40 1] docastle_state_ctor))
  = replicate 9 0.
Proof.
  apply (machine_reset_state
           (run [op_cpu2_latch_w 4 0x99; op_tint 0x40 1] docastle_state_ctor)
           (Mrdo.build Mrdo.GAME_mrdot []) 4).
  - split; reflexivity.
  - lia.
Defined.

End DocastleSpec.

(** * Part VII: further properties of mrdo.cpp *)

Module MrdoVideoSpec.
Import Mrdo MrdoVideo.

(** *** The protection PAL as a lookup table *)

Lemma pal_output_table_check :
  forallb (fun d => (pal_output d =? pal_table d)
                    && Bool.eqb (negb (pal_output d =? 0xff))
                                (existsb (Z.eqb (Z.land d 0xfb)) (map fst pal_keys)))
          (map Z.of_nat (seq 0 256)) = true.
Proof. vm_compute. reflexivity. Qed.

(** The PAL answers with something other than 0xff for exactly eight
    input bytes: 0xa1, 0x32, 0xc9 and 0x6b, each with bit 2 either way; the
    answers are 0xc1, 0xfb, 0x97 and 0xbf. *)
Theorem pal_output_keys (d : Z) :
  0 <= d < 256 ->
  pal_output d = pal_table d /\
  (pal_output d <> 0xff <-> In (Z.land d 0xfb) [0xa1; 0x32; 0xc9; 0x6b]) /\
  In (pal_output d) [0xff; 0xc1; 0xfb; 0x97; 0xbf].
Proof.
  intros Hd.
  pose proof (byte_forall _ pal_output_table_check d Hd) as H.
  apply andb_true_iff in H as [Ht Hk].
  apply Z.eqb_eq in Ht. apply Bool.eqb_prop in Hk.
  split; [exact Ht |]. split.
  - split.
    + intros Hne.
      assert (Hx : existsb (Z.eqb (Z.land d 0xfb)) (map fst pal_keys) = true).
      { rewrite <- Hk. destruct (Z.eqb_spec (pal_output d) 0xff); [contradiction | reflexivity]. }
      apply existsb_exists in Hx as (k & Hin & Hk').
      apply Z.eqb_eq in Hk'. rewrite Hk'. exact Hin.
    + intros Hin Heq.
      assert (Hx : existsb (Z.eqb (Z.land d 0xfb)) (map fst pal_keys) = true).
      { apply existsb_exists. exists (Z.land d 0xfb). split; [exact Hin | apply Z.eqb_refl]. }
      rewrite <- Hk, Heq in Hx. discriminate.
  - rewrite Ht. unfold pal_table, pal_keys. cbn [find fst snd].
    repeat (destruct (Z.land d 251 =? _); [cbn; tauto |]). cbn. tauto.
Qed.

Lemma pal_output_keys_witness : pal_output 0x6f = 0xbf.
Proof.
  destruct (pal_output_keys 0x6f) as [H _]; [lia |].
  rewrite H. reflexivity.
Defined.

(** *** The latch follows the written data and nothing else *)

Lemma protection_w_mrdot (d : Z) (s : mrdo_state) :
  dyn_class s = mrdot_state_class ->
  m_pal_enabled s = true ->
  protection_w d s = set_pal_u001 (pal_output d) s.
Proof.
  intros Hc He. unfold protection_w, update_protection. rewrite He, Hc.
  reflexivity.
Qed.

Lemma step_latch_track (s : mrdo_state) (op : bus_op) :
  dyn_class s = mrdot_state_class ->
  m_pal_enabled s = true ->
  m_pal_u001 (step s op) = latch_track (m_pal_u001 s) op.
Proof.
  intros Hc He.
  destruct op as [w o d | w o d | sp | hl |]; simpl; try reflexivity.
  - unfold fieldram_w. destruct (negb _);
      rewrite protection_w_mrdot by assumption; reflexivity.
  - unfold colorram_w. destruct (negb _);
      rewrite protection_w_mrdot by assumption; reflexivity.
Qed.

(** On a protected (mrdot) machine the latch after any sequence of
    accesses is determined by the data bytes of the TVRAM writes and the
    resets in it, in order: video RAM contents, offsets, banks, HL and
    reads play no part.  After a TVRAM write of [d] the latch, and what a
    read of the protection address returns, is the PAL output for [d],
    whatever came before. *)
Theorem latch_follows_writes
    (s : mrdo_state) (ops : list bus_op) (w o : nat) (d : Z) (space : address_space) :
  dyn_class s = mrdot_state_class ->
  m_pal_enabled s = true ->
  m_bypass_pal s = false ->
  m_pal_u001 (run ops s) = fold_left latch_track ops (m_pal_u001 s) /\
  m_pal_u001 (run (ops ++ [op_fieldram_w w o d]) s) = pal_output d /\
  m_pal_u001 (run (ops ++ [op_colorram_w w o d]) s) = pal_output d /\
  protection_r space (run (ops ++ [op_fieldram_w w o d]) s) = pal_output d.
Proof.
  intros Hc He Hb.
  assert (Htrack : forall ops' s', dyn_class s' = mrdot_state_class ->
            m_pal_enabled s' = true ->
            m_pal_u001 (run ops' s') = fold_left latch_track ops' (m_pal_u001 s')).
  { induction ops' as [| op ops' IH]; intros s' Hc' He'; simpl; [reflexivity |].
    destruct (MrdoSpec.step_config s' op) as (Hc2 & He2 & _).
    unfold run in IH. rewrite IH by congruence.
    rewrite step_latch_track by assumption. reflexivity. }
  split; [apply Htrack; assumption |].
  assert (Hf : m_pal_u001 (run (ops ++ [op_fieldram_w w o d]) s) = pal_output d).
  { rewrite Htrack by assumption. rewrite fold_left_app. reflexivity. }
  split; [exact Hf |]. split.
  - rewrite Htrack by assumption. rewrite fold_left_app. reflexivity.
  - destruct (MrdoSpec.run_config (ops ++ [op_fieldram_w w o d]) s) as (_ & He' & Hb').
    unfold protection_r. rewrite He', Hb', He, Hb. exact Hf.
Qed.

Lemma latch_follows_writes_witness :
  m_pal_u001 (run ([op_colorram_w 0 5 0xa1; op_cpu_HL 0x1234] ++ [op_fieldram_w 1 7 0x36])
                  (machine_reset (build GAME_mrdot []))) = 0xfb.
Proof.
  destruct (latch_follows_writes (machine_reset (build GAME_mrdot []))
              [op_colorram_w 0 5 0xa1; op_cpu_HL 0x1234] 1 7 0x36 sample_space)
    as (_ & H & _); [reflexivity | reflexivity | reflexivity |].
  rewrite H. reflexivity.
Defined.

(** *** TVRAM writes as stores *)

Lemma protection_w_ram (d : Z) (s : mrdo_state) :
  m_fieldram (protection_w d s) = m_fieldram s /\
  m_colorram (protection_w d s) = m_colorram s.
Proof.
  unfold protection_w, update_protection.
  destruct (m_pal_enabled s); [| split; reflexivity].
  destruct (dyn_class s); split; reflexivity.
Qed.

Lemma ram_store_load (ram : list (list Z)) (w o : nat) (d : Z) :
  ram_wf ram -> (w < 2)%nat -> (o < 0x400)%nat ->
  ram_load (ram_store ram w o d) w o = d.
Proof.
  intros [Hlen Hbanks] Hw Ho. unfold ram_load, ram_store.
  destruct (lookup_lt_is_Some_2 ram w ltac:(lia)) as [bank Hbank].
  rewrite list_lookup_alter_eq, Hbank. simpl.
  rewrite list_lookup_insert_eq; [reflexivity |].
  rewrite Forall_lookup in Hbanks. rewrite (Hbanks w bank Hbank). exact Ho.
Qed.

Lemma ram_store_other (ram : list (list Z)) (w o w' o' : nat) (d : Z) :
  (w', o') <> (w, o) ->
  ram_load (ram_store ram w o d) w' o' = ram_load ram w' o'.
Proof.
  intros Hne. unfold ram_load, ram_store.
  destruct (decide (w' = w)) as [-> | Hw].
  - rewrite list_lookup_alter_eq. destruct (ram !! w) as [bank |]; simpl; [| reflexivity].
    rewrite list_lookup_insert_ne; [reflexivity | congruence].
  - rewrite list_lookup_alter_ne by congruence. reflexivity.
Qed.

Lemma ram_store_wf (ram : list (list Z)) (w o : nat) (d : Z) :
  ram_wf ram -> ram_wf (ram_store ram w o d).
Proof.
  intros [Hlen Hbanks]. unfold ram_wf, ram_store. split.
  - rewrite length_alter. exact Hlen.
  - rewrite Forall_lookup in *. intros i bank Hi.
    destruct (decide (i = w)) as [-> | Hne].
    + rewrite list_lookup_alter_eq in Hi.
      destruct (ram !! w) as [bank0 |] eqn:Hb; [| discriminate].
      simpl in Hi. injection Hi as <-. rewrite length_insert.
      exact (Hbanks w bank0 Hb).
    + rewrite list_lookup_alter_ne in Hi by congruence. exact (Hbanks i bank Hi).
Qed.

(** A write to field RAM is a store: the written cell then holds the data
    byte, every other cell of field RAM and all of colour RAM are as
    before, and the arrays keep their shape.  The same holds for colour
    RAM with the two arrays exchanged. *)
Theorem tvram_write_is_store
    (s : mrdo_state) (w o w' o' : nat) (d : Z) :
  ram_wf (m_fieldram s) ->
  ram_wf (m_colorram s) ->
  (w < 2)%nat ->
  (o < 0x400)%nat ->
  (w', o') <> (w, o) ->
  (ram_load (m_fieldram (fieldram_w w o d s)) w o = d /\
   ram_load (m_fieldram (fieldram_w w o d s)) w' o' = ram_load (m_fieldram s) w' o' /\
   m_colorram (fieldram_w w o d s) = m_colorram s /\
   ram_wf (m_fieldram (fieldram_w w o d s))) /\
  (ram_load (m_colorram (colorram_w w o d s)) w o = d /\
   ram_load (m_colorram (colorram_w w o d s)) w' o' = ram_load (m_colorram s) w' o' /\
   m_fieldram (colorram_w w o d s) = m_fieldram s /\
   ram_wf (m_colorram (colorram_w w o d s))).
Proof.
  intros Hf Hc Hw Ho Hne. split.
  - unfold fieldram_w.
    destruct (Z.eqb_spec (ram_load (m_fieldram s) w o) d) as [Heq | Hneq]; simpl;
      match goal with
      | |- context [protection_w d ?x] =>
          destruct (protection_w_ram d x) as [-> ->]
      end; simpl.
    + repeat split; try assumption; try apply Hf; reflexivity.
    + rewrite ram_store_load by assumption.
      rewrite ram_store_other by assumption.
      repeat split; apply (ram_store_wf _ _ _ _ Hf).
  - unfold colorram_w.
    destruct (Z.eqb_spec (ram_load (m_colorram s) w o) d) as [Heq | Hneq]; simpl;
      match goal with
      | |- context [protection_w d ?x] =>
          destruct (protection_w_ram d x) as [-> ->]
      end; simpl.
    + repeat split; try assumption; try apply Hc; reflexivity.
    + rewrite ram_store_load by assumption.
      rewrite ram_store_other by assumption.
      repeat split; apply (ram_store_wf _ _ _ _ Hc).
Qed.

Lemma blank_ram_wf : ram_wf blank_ram.
Proof.
  split; [reflexivity |].
  repeat constructor; apply length_replicate.
Qed.

Lemma tvram_write_is_store_witness :
  ram_load (m_fieldram (fieldram_w 1 0x3ff 0x5a (build GAME_mrdot []))) 1 0x3ff = 0x5a.
Proof.
  apply (tvram_write_is_store (build GAME_mrdot []) 1 0x3ff 0 0 0x5a).
  - exact blank_ram_wf.
  - exact blank_ram_wf.
  - lia.
  - lia.
  - discriminate.
Defined.

(** *** Tile attributes *)

Lemma b2z_to_bool_BIT (x n : Z) : 0 <= n -> Z.b2z (to_bool (BIT x n)) = BIT x n.
Proof.
  intros Hn. destruct (BIT_cases x n Hn) as [-> | ->]; reflexivity.
Qed.

Lemma to_bool_BIT (x n : Z) : 0 <= n -> to_bool (BIT x n) = Z.testbit x n.
Proof.
  intros Hn. rewrite BIT_testbit by assumption.
  destruct (Z.testbit x n); reflexivity.
Qed.

Lemma tile_code_check :
  forallb (fun f => (to_u16 (Z.lor f (Z.shiftl 0 8)) =? f)
                    && (to_u16 (Z.lor f (Z.shiftl 1 8)) =? f + 256))
          (map Z.of_nat (seq 0 256)) = true.
Proof. vm_compute. reflexivity. Qed.

Lemma tile_attr_check :
  forallb (fun a => (to_u8 (Z.land a 0x3f) =? a mod 64)
                    && (a =? a mod 64 + 64 * BIT a 6 + 128 * BIT a 7))
          (map Z.of_nat (seq 0 256)) = true.
Proof. vm_compute. reflexivity. Qed.

(** The tile callback splits the colour RAM byte without loss: bit 7 is
    the bank (bit 8 of the tile code, above the field RAM byte), bit 6
    forces layer 0, bits 0-5 are the colour.  The code is below 512 and
    the colour below 64. *)
Theorem get_tile_info_decode (s : mrdo_state) (w i : nat) :
  is_byte (ram_load (m_colorram s) w i) ->
  is_byte (ram_load (m_fieldram s) w i) ->
  tile_gfx (get_tile_info w i s) = w /\
  tile_code (get_tile_info w i s)
  = ram_load (m_fieldram s) w i + 256 * BIT (ram_load (m_colorram s) w i) 7 /\
  0 <= tile_code (get_tile_info w i s) < 512 /\
  tile_color (get_tile_info w i s) = ram_load (m_colorram s) w i mod 64 /\
  (tile_flag (get_tile_info w i s) = TILE_FORCE_LAYER0
   <-> Z.testbit (ram_load (m_colorram s) w i) 6 = true) /\
  ram_load (m_colorram s) w i
  = tile_color (get_tile_info w i s)
    + 64 * BIT (ram_load (m_colorram s) w i) 6
    + 128 * BIT (ram_load (m_colorram s) w i) 7.
Proof.
  intros Ha Hf. unfold get_tile_info. cbn [tile_gfx tile_code tile_color tile_flag].
  set (attr := ram_load (m_colorram s) w i) in *.
  set (field := ram_load (m_fieldram s) w i) in *.
  pose proof (byte_forall _ tile_code_check field Hf) as Hc.
  apply andb_true_iff in Hc as [Hc0 Hc1]. apply Z.eqb_eq in Hc0, Hc1.
  pose proof (byte_forall _ tile_attr_check attr Ha) as Hat.
  apply andb_true_iff in Hat as [Hcol Hsum]. apply Z.eqb_eq in Hcol, Hsum.
  assert (Hcode : to_u16 (Z.lor field (Z.shiftl (Z.b2z (to_bool (BIT attr 7))) 8))
                  = field + 256 * BIT attr 7).
  { rewrite b2z_to_bool_BIT by lia.
    destruct (BIT_cases attr 7 ltac:(lia)) as [-> | ->]; [rewrite Hc0 | rewrite Hc1]; lia. }
  split; [reflexivity |]. split; [exact Hcode |]. split.
  { rewrite Hcode. unfold is_byte in Hf.
    destruct (BIT_cases attr 7 ltac:(lia)) as [-> | ->]; lia. }
  split; [exact Hcol |]. split.
  { rewrite to_bool_BIT by lia. destruct (Z.testbit attr 6); split;
      intros H; try reflexivity; discriminate. }
  rewrite Hcol. exact Hsum.
Qed.

Lemma get_tile_info_decode_witness :
  tile_code (get_tile_info 0 3
               (colorram_w 0 3 0xa5 (fieldram_w 0 3 0x7c (build GAME_mrdo []))))
  = 0x17c.
Proof.
  destruct (get_tile_info_decode
              (colorram_w 0 3 0xa5 (fieldram_w 0 3 0x7c (build GAME_mrdo []))) 0 3)
    as (_ & H & _).
  - split; [apply Z.leb_le | apply Z.ltb_lt]; vm_compute; reflexivity.
  - split; [apply Z.leb_le | apply Z.ltb_lt]; vm_compute; reflexivity.
  - rewrite H. vm_compute. reflexivity.
Defined.

(** *** Vertical scroll under flip *)

Lemma scrolly_check :
  forallb (fun d => let v := Z.land (256 - d) 0xff in
                    (0 <=? v) && (v <? 256) && ((d + v) mod 256 =? 0)
                    && (Z.land (256 - v) 0xff =? d))
          (map Z.of_nat (seq 0 256)) = true.
Proof. vm_compute. reflexivity. Qed.

(** With the screen flipped the vertical scroll register receives the
    negation of the data byte modulo 256 (so 0 stays 0), and writing that
    value back under flip gives the original byte; without flip the byte
    goes through unchanged. *)
Theorem scrolly_w_negates_under_flip (data : Z) :
  is_byte data ->
  scrolly_w true data = [set_scrolly 0 0 (Z.land (256 - data) 0xff)] /\
  is_byte (Z.land (256 - data) 0xff) /\
  (data + Z.land (256 - data) 0xff) mod 256 = 0 /\
  scrolly_w true (Z.land (256 - data) 0xff) = [set_scrolly 0 0 data] /\
  scrolly_w false data = [set_scrolly 0 0 data].
Proof.
  intros Hd.
  pose proof (byte_forall _ scrolly_check data Hd) as H. cbv zeta in H.
  repeat (apply andb_true_iff in H as [H ?]).
  unfold scrolly_w, is_byte.
  repeat split; try reflexivity; try lia.
  f_equal. f_equal. apply Z.eqb_eq. assumption.
Qed.

Lemma scrolly_w_negates_under_flip_witness :
  scrolly_w true 0x10 = [set_scrolly 0 0 0xf0].
Proof.
  apply (scrolly_w_negates_under_flip 0x10). unfold is_byte. lia.
Defined.

(** *** Sprites *)

Lemma read_at_app_r (l1 l2 : list Z) (k : Z) :
  0 <= k -> read_at (l1 ++ l2) (Z.of_nat (length l1) + k) = read_at l2 k.
Proof.
  intros Hk. unfold read_at.
  destruct (Z.ltb_spec (Z.of_nat (length l1) + k) 0); [lia |].
  destruct (Z.ltb_spec k 0); [lia |].
  rewrite lookup_app_r by lia. f_equal. lia.
Qed.

Lemma read_at_app_l (l1 l2 : list Z) (k : Z) :
  k < Z.of_nat (length l1) -> read_at (l1 ++ l2) k = read_at l1 k.
Proof.
  intros Hk. unfold read_at. destruct (Z.ltb_spec k 0); [reflexivity |].
  apply lookup_app_l. lia.
Qed.

Lemma sprite_ram_app (xs ys : list sprite_entry) :
  sprite_ram (xs ++ ys) = sprite_ram xs ++ sprite_ram ys.
Proof. unfold sprite_ram. rewrite map_app, concat_app. reflexivity. Qed.

Lemma sprite_ram_length (entries : list sprite_entry) :
  length (sprite_ram entries) = (4 * length entries)%nat.
Proof.
  induction entries as [| [[[b0 b1] b2] b3] entries IH]; [reflexivity |].
  change (sprite_ram ((b0, b1, b2, b3) :: entries))
    with ([b0; b1; b2; b3] ++ sprite_ram entries).
  rewrite length_app, IH. simpl. lia.
Qed.

Lemma draw_sprite_entry (before : list Z) (e : sprite_entry) (tail : list Z) :
  draw_sprite (before ++ entry_bytes e ++ tail) (Z.of_nat (length before))
  = Some (entry_call e).
Proof.
  destruct e as [[[b0 b1] b2] b3]. unfold draw_sprite.
  rewrite !read_at_app_r by lia. cbn [entry_bytes app].
  change (read_at (b0 :: b1 :: b2 :: b3 :: tail) 1) with (Some b1).
  change (read_at (b0 :: b1 :: b2 :: b3 :: tail) 0) with (Some b0).
  change (read_at (b0 :: b1 :: b2 :: b3 :: tail) 2) with (Some b2).
  change (read_at (b0 :: b1 :: b2 :: b3 :: tail) 3) with (Some b3).
  cbn [mbind option_bind entry_call].
  destruct (b1 =? 0); reflexivity.
Qed.

Lemma loop_sprites (head : list Z) (entries : list sprite_entry) :
  forall (tail : list Z) (fuel : nat),
    (length head < 4)%nat ->
    (length entries <= fuel)%nat ->
    loop_offs_down (draw_sprite (head ++ sprite_ram entries ++ tail)) fuel
                   (Z.of_nat (length head) + 4 * Z.of_nat (length entries) - 4)
    = Some (concat (map entry_call (rev entries))).
Proof.
  induction entries as [| e pre IH] using rev_ind; intros tail fuel Hh Hfuel.
  - cbn [length rev map concat].
    destruct fuel as [| fuel]; [reflexivity |]. cbn [loop_offs_down].
    destruct (Z.leb_spec 0 (Z.of_nat (length head) + 4 * Z.of_nat 0 - 4));
      [lia | reflexivity].
  - rewrite length_app in *. cbn [length] in *.
    destruct fuel as [| fuel]; [lia |]. cbn [loop_offs_down].
    destruct (Z.leb_spec 0 (Z.of_nat (length head)
                            + 4 * Z.of_nat (length pre + 1) - 4)); [| lia].
    rewrite sprite_ram_app.
    change (sprite_ram [e]) with (entry_bytes e ++ []). rewrite app_nil_r.
    replace (head ++ (sprite_ram pre ++ entry_bytes e) ++ tail)
      with ((head ++ sprite_ram pre) ++ entry_bytes e ++ tail)
      by (rewrite <- !app_assoc; reflexivity).
    replace (Z.of_nat (length head) + 4 * Z.of_nat (length pre + 1) - 4)
      with (Z.of_nat (length (head ++ sprite_ram pre)))
      by (rewrite length_app, sprite_ram_length; lia).
    rewrite draw_sprite_entry. cbn [mbind option_bind].
    replace ((head ++ sprite_ram pre) ++ entry_bytes e ++ tail)
      with (head ++ sprite_ram pre ++ (entry_bytes e ++ tail))
      by (rewrite <- !app_assoc; reflexivity).
    replace (Z.of_nat (length (head ++ sprite_ram pre)) - 4)
      with (Z.of_nat (length head) + 4 * Z.of_nat (length pre) - 4)
      by (rewrite length_app, sprite_ram_length; lia).
    rewrite IH by lia. cbn [mbind option_bind].
    rewrite rev_app_distr. reflexivity.
Qed.

(** Every list of bytes is a few leading bytes (fewer than four) followed
    by whole 4-byte entries. *)
Lemma bytes_as_entries (n : nat) :
  forall ram : list Z, length ram = (4 * n)%nat ->
                       exists entries, ram = sprite_ram entries.
Proof.
  induction n as [| n IH]; intros ram Hlen.
  - destruct ram; [exists []; reflexivity | discriminate].
  - destruct ram as [| b0 [| b1 [| b2 [| b3 rest]]]]; simpl in Hlen; try lia.
    destruct (IH rest ltac:(lia)) as [entries ->].
    exists ((b0, b1, b2, b3) :: entries). reflexivity.
Qed.

Lemma ram_as_entries (ram : list Z) :
  exists head entries, ram = head ++ sprite_ram entries /\ (length head < 4)%nat.
Proof.
  pose proof (Nat.div_mod_eq (length ram) 4) as Hdm.
  pose proof (Nat.mod_upper_bound (length ram) 4 ltac:(lia)) as Hr.
  destruct (bytes_as_entries (length ram / 4) (drop (length ram mod 4) ram))
    as [entries Hentries].
  { rewrite length_drop. lia. }
  exists (take (length ram mod 4) ram), entries. split.
  - rewrite <- Hentries. symmetry. apply take_drop.
  - rewrite length_take. lia.
Qed.

(** [draw_sprites] walks sprite RAM from its last 4-byte entry to its
    first, drawing an entry unless its second byte is 0, so the entry at
    the lowest address is drawn last, on top.  It never reads outside
    sprite RAM, whatever the size of the RAM. *)
Theorem draw_sprites_back_to_front
    (head : list Z) (entries : list sprite_entry) (ram : list Z) :
  (length head < 4)%nat ->
  draw_sprites (head ++ sprite_ram entries)
  = Some (concat (map entry_call (rev entries))) /\
  draw_sprites (sprite_ram entries)
  = Some (concat (map entry_call (rev entries))) /\
  is_Some (draw_sprites ram).
Proof.
  intros Hh.
  assert (Hgen : forall hd es, (length hd < 4)%nat ->
            draw_sprites (hd ++ sprite_ram es)
            = Some (concat (map entry_call (rev es)))).
  { intros hd es Hhd. unfold draw_sprites.
    pose proof (loop_sprites hd es []) as L. rewrite app_nil_r in L.
    replace (Z.of_nat (length (hd ++ sprite_ram es)) - 4)
      with (Z.of_nat (length hd) + 4 * Z.of_nat (length es) - 4)
      by (rewrite length_app, sprite_ram_length; lia).
    apply L; [exact Hhd |]. lia. }
  split; [apply Hgen; exact Hh |]. split.
  - apply (Hgen [] entries). simpl. lia.
  - destruct (ram_as_entries ram) as (hd & es & -> & Hhd).
    rewrite Hgen by exact Hhd. eauto.
Qed.

Lemma draw_sprites_back_to_front_witness :
  draw_sprites [0x11; 0x20; 0x13; 0x40;  0x22; 0x00; 0x05; 0x50;  0x33; 0xf0; 0x21; 0x60]
  = Some [transpen 2 0x33 1 false true 0x60 0x10 0;
          transpen 2 0x11 3 true false 0x40 0xe0 0].
Proof.
  apply (draw_sprites_back_to_front []
           [(0x11, 0x20, 0x13, 0x40); (0x22, 0x00, 0x05, 0x50); (0x33, 0xf0, 0x21, 0x60)]
           []).
  simpl. lia.
Defined.




(** *** Palette *)

Lemma in_upto (n : nat) (i : Z) : In i (upto n) -> 0 <= i < Z.of_nat n.
Proof.
  unfold upto. intros Hin. apply in_map_iff in Hin as (k & <- & Hk).
  apply in_seq in Hk. lia.
Qed.

Lemma read_at_is_Some (arr : list Z) (i : Z) :
  0 <= i < Z.of_nat (length arr) -> is_Some (read_at arr i).
Proof.
  intros Hi. unfold read_at. destruct (Z.ltb_spec i 0); [lia |].
  apply lookup_lt_is_Some_2. lia.
Qed.

Lemma palette_address_check :
  forallb (fun i => (0x20 <=? palette_a1 i) && (palette_a1 i <? 0x40)
                    && (palette_a2 i =? Z.land i 0x1f)
                    && (0 <=? palette_a2 i) && (palette_a2 i <? 0x20))
          (map Z.of_nat (seq 0 256)) = true.
Proof. vm_compute. reflexivity. Qed.

Lemma weight_index_range (p1 p2 shift : Z) :
  0 <= Z.land (Z.shiftr p1 shift) 0x03 + Z.shiftl (Z.land (Z.shiftr p2 shift) 0x03) 2 < 16.
Proof.
  change 3 with (Z.ones 2). rewrite !Z.land_ones by lia.
  rewrite Z.shiftl_mul_pow2 by lia.
  pose proof (Z.mod_pos_bound (Z.shiftr p1 shift) (2 ^ 2) ltac:(lia)).
  pose proof (Z.mod_pos_bound (Z.shiftr p2 shift) (2 ^ 2) ltac:(lia)).
  change (2 ^ 2) with 4 in *. lia.
Qed.

Lemma palette_component_is_Some (weight prom : list Z) (a1 a2 shift : Z) :
  length weight = 16%nat ->
  0 <= a1 < Z.of_nat (length prom) ->
  0 <= a2 < Z.of_nat (length prom) ->
  is_Some (palette_component weight prom a1 a2 shift).
Proof.
  intros Hw H1 H2. unfold palette_component.
  destruct (read_at_is_Some prom a1 H1) as [p1 ->].
  destruct (read_at_is_Some prom a2 H2) as [p2 ->].
  cbn [mbind option_bind]. apply read_at_is_Some.
  rewrite Hw. pose proof (weight_index_range p1 p2 shift). lia.
Qed.

Lemma palette_color_is_Some (weight prom : list Z) (i : Z) :
  length weight = 16%nat ->
  (0x40 <= length prom)%nat ->
  0 <= i < 256 ->
  is_Some (palette_color weight prom i).
Proof.
  intros Hw Hp Hi.
  pose proof (byte_forall _ palette_address_check i Hi) as H.
  repeat (apply andb_true_iff in H as [H ?]).
  assert (Ha1 : 0 <= palette_a1 i < Z.of_nat (length prom)) by lia.
  assert (Ha2 : 0 <= palette_a2 i < Z.of_nat (length prom)) by lia.
  unfold palette_color.
  destruct (palette_component_is_Some weight prom _ _ 0 Hw Ha1 Ha2) as [r ->].
  destruct (palette_component_is_Some weight prom _ _ 2 Hw Ha1 Ha2) as [g ->].
  destruct (palette_component_is_Some weight prom _ _ 4 Hw Ha1 Ha2) as [b ->].
  cbn [mbind option_bind]. eauto.
Qed.

Lemma palette_sprite_pen_is_Some (prom : list Z) (i : Z) :
  (0x60 <= length prom)%nat ->
  is_Some (palette_sprite_pen prom i).
Proof.
  intros Hp. unfold palette_sprite_pen.
  assert (Hr : 0 <= Z.land i 0x1f < 32).
  { change 31 with (Z.ones 5). rewrite Z.land_ones by lia.
    apply Z.mod_pos_bound. lia. }
  destruct (read_at_is_Some prom (0x40 + Z.land i 0x1f) ltac:(lia)) as [e ->].
  cbn [mbind option_bind]. eauto.
Qed.

Lemma lookup_map {A B : Type} (f : A -> B) (l : list A) (k : nat) :
  map f l !! k = f <$> (l !! k).
Proof.
  revert k. induction l as [| x l IH]; intros [| k]; try reflexivity.
  cbn [map]. apply IH.
Qed.

Lemma lookup_upto (n k : nat) : (k < n)%nat -> upto n !! k = Some (Z.of_nat k).
Proof.
  intros Hk. unfold upto. rewrite lookup_map, lookup_seq_lt by exact Hk.
  reflexivity.
Qed.

Lemma length_upto (n : nat) : length (upto n) = n.
Proof. unfold upto. rewrite length_map, length_seq. reflexivity. Qed.

Lemma palette_address_formula_check :
  forallb (fun i => (palette_a1 i =? 0x20 + 4 * (i / 32) + i mod 4)
                    && (palette_a2 i =? i mod 32))
          (map Z.of_nat (seq 0 256)) = true.
Proof. vm_compute. reflexivity. Qed.

Lemma weight_index_formula (p1 p2 shift : Z) :
  0 <= shift ->
  Z.land (Z.shiftr p1 shift) 0x03 + Z.shiftl (Z.land (Z.shiftr p2 shift) 0x03) 2
  = (p1 / 2 ^ shift) mod 4 + 4 * ((p2 / 2 ^ shift) mod 4).
Proof.
  intros Hs. change 3 with (Z.ones 2). rewrite !Z.land_ones by lia.
  rewrite Z.shiftl_mul_pow2, !Z.shiftr_div_pow2 by lia.
  change (2 ^ 2) with 4. lia.
Qed.

Lemma palette_component_formula (weight prom : list Z) (a1 a2 shift p1 p2 : Z) :
  0 <= shift ->
  read_at prom a1 = Some p1 ->
  read_at prom a2 = Some p2 ->
  palette_component weight prom a1 a2 shift
  = read_at weight ((p1 / 2 ^ shift) mod 4 + 4 * ((p2 / 2 ^ shift) mod 4)).
Proof.
  intros Hs H1 H2. unfold palette_component. rewrite H1, H2.
  cbn [mbind option_bind]. rewrite weight_index_formula by exact Hs. reflexivity.
Qed.

(** With a 16-entry weight table and the 0x60 PROM bytes it uses, the
    palette initialisation never reads outside either array and makes 576
    palette calls.  Call [i] (for [i] below 256) sets indirect colour [i]
    from the PROM byte [p1] at [0x20 + 4 * (i / 32) + i mod 4] - bits 7-5
    and 1-0 of [i] - and the PROM byte [p2] at [i mod 32]: each of red,
    green and blue is the weight indexed by two bits of [p1] (low) and the
    same two bits of [p2] (high), bits 1-0, 3-2 and 5-4 in turn.  Call
    [256 + i] maps character pen [i] to indirect colour [i], and call
    [512 + i] (for [i] below 64) is the sprite pen of the lookup table. *)
Theorem palette_reads_in_range (weight prom : list Z) (i : Z) :
  length weight = 16%nat ->
  (0x60 <= length prom)%nat ->
  0 <= i < 256 ->
  exists calls p1 p2 r g b,
    palette weight prom = Some calls /\
    length calls = 576%nat /\
    read_at prom (0x20 + 4 * (i / 32) + i mod 4) = Some p1 /\
    read_at prom (i mod 32) = Some p2 /\
    read_at weight (p1 mod 4 + 4 * (p2 mod 4)) = Some r /\
    read_at weight ((p1 / 4) mod 4 + 4 * ((p2 / 4) mod 4)) = Some g /\
    read_at weight ((p1 / 16) mod 4 + 4 * ((p2 / 16) mod 4)) = Some b /\
    calls !! Z.to_nat i = Some (set_indirect_color i (to_u8 r) (to_u8 g) (to_u8 b)) /\
    calls !! Z.to_nat (0x100 + i) = Some (set_pen_indirect i i) /\
    (i < 0x40 ->
     is_Some (palette_sprite_pen prom i) /\
     calls !! Z.to_nat (0x200 + i) = palette_sprite_pen prom i).
Proof.
  intros Hw Hp Hi.
  (* the whole list *)
  destruct (mapM_is_Some_2 (palette_color weight prom) (upto 0x100)) as [colors Hc].
  { apply Forall_forall. intros j Hj. apply list_elem_of_In, in_upto in Hj.
    apply palette_color_is_Some; [exact Hw | lia | lia]. }
  destruct (mapM_is_Some_2 (palette_sprite_pen prom) (upto 0x40)) as [sprites Hs].
  { apply Forall_forall. intros j Hj. apply palette_sprite_pen_is_Some. exact Hp. }
  pose proof (length_mapM _ _ _ Hc) as Lc. rewrite length_upto in Lc.
  pose proof (length_mapM _ _ _ Hs) as Ls. rewrite length_upto in Ls.
  (* the addresses and the three components of colour i *)
  pose proof (byte_forall _ palette_address_formula_check i Hi) as Hf. cbv beta in Hf.
  apply andb_true_iff in Hf as [Hf1 Hf2]. apply Z.eqb_eq in Hf1, Hf2.
  pose proof (byte_forall _ palette_address_check i Hi) as Hr. cbv beta in Hr.
  repeat (apply andb_true_iff in Hr as [Hr ?]).
  repeat match goal with
         | H : (_ <=? _) = true |- _ => apply Z.leb_le in H
         | H : (_ <? _) = true |- _ => apply Z.ltb_lt in H
         | H : (palette_a2 _ =? _) = true |- _ => clear H
         end.
  destruct (read_at_is_Some prom (palette_a1 i) ltac:(lia)) as [p1 Hp1].
  destruct (read_at_is_Some prom (palette_a2 i) ltac:(lia)) as [p2 Hp2].
  assert (Hidx : forall shift, 0 <= shift ->
            0 <= (p1 / 2 ^ shift) mod 4 + 4 * ((p2 / 2 ^ shift) mod 4)
            < Z.of_nat (length weight)).
  { intros shift Hsh. rewrite Hw.
    pose proof (Z.mod_pos_bound (p1 / 2 ^ shift) 4 ltac:(lia)).
    pose proof (Z.mod_pos_bound (p2 / 2 ^ shift) 4 ltac:(lia)). lia. }
  destruct (read_at_is_Some weight _ (Hidx 0 ltac:(lia))) as [r Hr0].
  destruct (read_at_is_Some weight _ (Hidx 2 ltac:(lia))) as [g Hg0].
  destruct (read_at_is_Some weight _ (Hidx 4 ltac:(lia))) as [b Hb0].
  assert (Hcolor : palette_color weight prom i
                   = Some (set_indirect_color i (to_u8 r) (to_u8 g) (to_u8 b))).
  { unfold palette_color.
    rewrite !(palette_component_formula weight prom _ _ _ p1 p2) by (lia || assumption).
    rewrite Hr0, Hg0, Hb0. reflexivity. }
  change (2 ^ 0) with 1 in Hr0. rewrite !Z.div_1_r in Hr0.
  change (2 ^ 2) with 4 in Hg0. change (2 ^ 4) with 16 in Hb0.
  rewrite Hf1 in Hp1. rewrite Hf2 in Hp2.
  exists (colors ++ map palette_char_pen (upto 0x100) ++ sprites), p1, p2, r, g, b.
  split.
  { unfold palette. rewrite Hc, Hs. reflexivity. }
  split.
  { rewrite !length_app, length_map, length_upto, <- Lc, <- Ls. reflexivity. }
  do 5 (split; [assumption |]).
  split.
  { rewrite lookup_app_l by lia.
    apply mapM_Some_1 in Hc.
    destruct (Forall2_lookup_l _ _ _ (Z.to_nat i) i Hc) as (y & Hy & Hfy).
    { rewrite lookup_upto by lia. f_equal. lia. }
    rewrite Hy. congruence. }
  split.
  { rewrite lookup_app_r by lia. rewrite lookup_app_l by (rewrite length_map, length_upto; lia).
    rewrite lookup_map, lookup_upto by lia.
    cbn [fmap option_fmap option_map]. unfold palette_char_pen. do 2 f_equal; lia. }
  intros H40. split; [apply palette_sprite_pen_is_Some; exact Hp |].
  rewrite lookup_app_r by lia.
  rewrite lookup_app_r by (rewrite length_map, length_upto; lia).
  rewrite length_map, length_upto.
  apply mapM_Some_1 in Hs.
  destruct (Forall2_lookup_l _ _ _ (Z.to_nat i) i Hs) as (y & Hy & Hfy).
  { rewrite lookup_upto by lia. f_equal. lia. }
  match goal with
  | |- sprites !! ?k = _ => replace k with (Z.to_nat i) by lia
  end.
  rewrite Hy. congruence.
Qed.

Lemma palette_reads_in_range_witness :
  exists calls p1 p2 r g b,
    palette (upto 16) (upto 0x80) = Some calls /\
    length calls = 576%nat /\
    read_at (upto 0x80) (0x20 + 4 * (0x27 / 32) + 0x27 mod 4) = Some p1 /\
    read_at (upto 0x80) (0x27 mod 32) = Some p2 /\
    read_at (upto 16) (p1 mod 4 + 4 * (p2 mod 4)) = Some r /\
    read_at (upto 16) ((p1 / 4) mod 4 + 4 * ((p2 / 4) mod 4)) = Some g /\
    read_at (upto 16) ((p1 / 16) mod 4 + 4 * ((p2 / 16) mod 4)) = Some b /\
    calls !! Z.to_nat 0x27
    = Some (set_indirect_color 0x27 (to_u8 r) (to_u8 g) (to_u8 b)) /\
    calls !! Z.to_nat (0x100 + 0x27) = Some (set_pen_indirect 0x27 0x27) /\
    (0x27 < 0x40 ->
     is_Some (palette_sprite_pen (upto 0x80) 0x27) /\
     calls !! Z.to_nat (0x200 + 0x27) = palette_sprite_pen (upto 0x80) 0x27).
Proof.
  apply (palette_reads_in_range (upto 16) (upto 0x80) 0x27).
  - apply length_upto.
  - rewrite length_upto. lia.
  - lia.
Defined.

Lemma read_at_fmap (f : Z -> Z) (arr : list Z) (i : Z) :
  read_at (f <$> arr) i = f <$> read_at arr i.
Proof.
  unfold read_at. destruct (i <? 0); [reflexivity |]. apply list_lookup_fmap.
Qed.

Lemma low_six_bits (p shift : Z) :
  shift = 0 \/ shift = 2 \/ shift = 4 ->
  Z.land (Z.shiftr (Z.land p 0x3f) shift) 0x03 = Z.land (Z.shiftr p shift) 0x03.
Proof.
  intros Hs. rewrite Z.shiftr_land, <- Z.land_assoc.
  destruct Hs as [-> | [-> | ->]]; reflexivity.
Qed.

(** Bits 6 and 7 of the palette PROM bytes are unused: clearing them in
    every byte leaves each of the 256 indirect colours as it was. *)
Theorem palette_ignores_top_bits (weight prom : list Z) (i : Z) :
  palette_color weight ((fun p => Z.land p 0x3f) <$> prom) i
  = palette_color weight prom i.
Proof.
  assert (Hc : forall shift, shift = 0 \/ shift = 2 \/ shift = 4 ->
            palette_component weight ((fun p => Z.land p 0x3f) <$> prom)
                              (palette_a1 i) (palette_a2 i) shift
            = palette_component weight prom (palette_a1 i) (palette_a2 i) shift).
  { intros shift Hs. unfold palette_component. rewrite !read_at_fmap.
    destruct (read_at prom (palette_a1 i)) as [p1 |]; [| reflexivity].
    destruct (read_at prom (palette_a2 i)) as [p2 |]; [| reflexivity].
    cbn [fmap option_fmap option_map mbind option_bind].
    rewrite !low_six_bits by exact Hs. reflexivity. }
  unfold palette_color. rewrite !Hc by tauto. reflexivity.
Qed.

Lemma sprite_pen_select_check :
  forallb (fun i => negb (i <? 0x20)
                    || ((Z.land i 0x1f =? i) && (Z.land (i + 0x20) 0x1f =? i)
                        && negb (to_bool (Z.land i 0x20))
                        && to_bool (Z.land (i + 0x20) 0x20)))
          (map Z.of_nat (seq 0 256)) = true.
Proof. vm_compute. reflexivity. Qed.

Lemma sprite_pen_nibble_check :
  forallb (fun e =>
             let lo := to_u8 (Z.land e 0x0f) in
             let hi := to_u8 (Z.shiftr e 4) in
             (lo =? e mod 16) && (hi =? e / 16)
             && ((lo + Z.shiftl (Z.land lo 0x0c) 3) mod 16 =? lo)
             && ((hi + Z.shiftl (Z.land hi 0x0c) 3) mod 16 =? hi)
             && (lo + Z.shiftl (Z.land lo 0x0c) 3 <? 0x70)
             && (hi + Z.shiftl (Z.land hi 0x0c) 3 <? 0x70))
          (map Z.of_nat (seq 0 256)) = true.
Proof. vm_compute. reflexivity. Qed.

(** Each byte of the sprite lookup table serves two sprite pens: pen
    0x100+i takes its low nibble and pen 0x120+i its high nibble, for i
    below 0x20.  The indirect colour chosen is below 0x70 and its own low
    nibble is the table nibble. *)
Theorem palette_sprite_pen_nibbles (prom : list Z) (i e : Z) :
  0 <= i < 0x20 ->
  read_at prom (0x40 + i) = Some e ->
  is_byte e ->
  exists lo hi,
    palette_sprite_pen prom i = Some (set_pen_indirect (i + 0x100) lo) /\
    palette_sprite_pen prom (i + 0x20) = Some (set_pen_indirect (i + 0x20 + 0x100) hi) /\
    lo mod 16 = e mod 16 /\ hi mod 16 = e / 16 /\
    0 <= lo < 0x70 /\ 0 <= hi < 0x70.
Proof.
  intros Hi Hread He.
  pose proof (byte_forall _ sprite_pen_select_check i ltac:(lia)) as Hsel.
  assert (Hlt : (i <? 0x20) = true) by (apply Z.ltb_lt; lia).
  cbv beta in Hsel. rewrite Hlt in Hsel. cbn [negb orb] in Hsel.
  repeat (apply andb_true_iff in Hsel as [Hsel ?]).
  repeat match goal with
         | H : (_ =? _) = true |- _ => apply Z.eqb_eq in H
         | H : negb _ = true |- _ => apply negb_true_iff in H
         end.
  pose proof (byte_forall _ sprite_pen_nibble_check e He) as Hn. cbv beta zeta in Hn.
  repeat (apply andb_true_iff in Hn as [Hn ?]).
  repeat match goal with
         | H : (_ =? _) = true |- _ => apply Z.eqb_eq in H
         | H : (_ <? _) = true |- _ => apply Z.ltb_lt in H
         end.
  unfold palette_sprite_pen.
  repeat match goal with
         | H : Z.land _ 31 = i |- _ => rewrite H
         | H : to_bool _ = _ |- _ => rewrite H
         end.
  rewrite Hread. cbn [mbind option_bind].
  eexists _, _. split; [reflexivity |]. split; [reflexivity |].
  assert (Hlo : 0 <= to_u8 (Z.land e 15)) by (rewrite Hn; apply Z.mod_pos_bound; lia).
  assert (Hhi : 0 <= to_u8 (Z.shiftr e 4))
    by (match goal with H : to_u8 (Z.shiftr e 4) = _ |- _ => rewrite H end;
        unfold is_byte in He; apply Z.div_pos; lia).
  assert (Hs : forall x, 0 <= x -> 0 <= x + Z.shiftl (Z.land x 12) 3).
  { intros x Hx. rewrite Z.shiftl_mul_pow2 by lia.
    assert (0 <= Z.land x 12) by (apply Z.land_nonneg; lia). lia. }
  repeat split; try congruence; try lia; try (apply Hs; assumption).
Qed.

Lemma palette_sprite_pen_nibbles_witness :
  exists lo hi,
    palette_sprite_pen (replicate 0x43 0 ++ [0xc7]) 3 = Some (set_pen_indirect (3 + 0x100) lo) /\
    palette_sprite_pen (replicate 0x43 0 ++ [0xc7]) (3 + 0x20)
    = Some (set_pen_indirect (3 + 0x20 + 0x100) hi) /\
    lo mod 16 = 0xc7 mod 16 /\ hi mod 16 = 0xc7 / 16 /\
    0 <= lo < 0x70 /\ 0 <= hi < 0x70.
Proof.
  apply (palette_sprite_pen_nibbles (replicate 0x43 0 ++ [0xc7]) 3 0xc7).
  - lia.
  - reflexivity.
  - unfold is_byte. lia.
Defined.

End MrdoVideoSpec.

(** * Part VIII: further properties of docastle.cpp *)

Module DocastleVideoSpec.
Import Docastle DocastleVideo.

(** *** The latch buffers as memory *)

Lemma buffer_at_insert (buf : list Z) (o i : nat) (d : Z) :
  (i < length buf)%nat ->
  buffer_at (<[o := d]> buf) i = if (o =? i)%nat then d else buffer_at buf i.
Proof.
  intros Hi. unfold buffer_at. destruct (Nat.eqb_spec o i) as [-> | Hne].
  - rewrite list_lookup_insert_eq by exact Hi. reflexivity.
  - rewrite list_lookup_insert_ne by exact Hne. reflexivity.
Qed.

Lemma step_track (op : bus_op) (i : nat) (s : docastle_state) :
  wf s -> (i < 9)%nat ->
  buffer_at (m_buffer1 (step op s).1) i
  = track_buffer1 i (buffer_at (m_buffer1 s) i) op /\
  buffer_at (m_buffer0 (step op s).1) i
  = track_buffer0 i (buffer_at (m_buffer0 s) i) op.
Proof.
  intros [H0 H1] Hi.
  destruct op as [o | o d | o | o d | d | ma st]; simpl;
    try (split; reflexivity).
  - split; [| reflexivity]. apply buffer_at_insert. lia.
  - split; [reflexivity |]. apply buffer_at_insert. lia.
  - unfold tint. destruct (to_bool st); split; reflexivity.
Qed.

(** Each cell of the two latch buffers behaves as a memory cell with one
    writer: after any sequence of accesses, what CPU B reads at offset [i]
    is the byte of CPU A's last write to that offset (or what the cell held
    before, if there was none), and the other way round.  So a later write
    replaces an earlier one, and a CPU's own writes never change what it
    reads itself. *)
Theorem buffers_follow_writes
    (s : docastle_state) (ops : list bus_op) (i o : nat) (d : Z) :
  wf s ->
  (i < 9)%nat ->
  (cpu2_latch_r i (run ops s)).1 = fold_left (track_buffer1 i) ops (cpu2_latch_r i s).1 /\
  (cpu1_latch_r i (run ops s)).1 = fold_left (track_buffer0 i) ops (cpu1_latch_r i s).1 /\
  (cpu2_latch_r i (run (ops ++ [op_cpu1_latch_w i d]) s)).1 = d /\
  (cpu1_latch_r i (run (ops ++ [op_cpu2_latch_w i d]) s)).1 = d /\
  (cpu1_latch_r i (cpu1_latch_w o d s).1).1 = (cpu1_latch_r i s).1 /\
  (cpu2_latch_r i (cpu2_latch_w o d s).1).1 = (cpu2_latch_r i s).1.
Proof.
  intros Hwf Hi.
  assert (Hrun : forall ops' s', wf s' ->
            buffer_at (m_buffer1 (run ops' s')) i
            = fold_left (track_buffer1 i) ops' (buffer_at (m_buffer1 s') i) /\
            buffer_at (m_buffer0 (run ops' s')) i
            = fold_left (track_buffer0 i) ops' (buffer_at (m_buffer0 s') i)).
  { induction ops' as [| op ops' IH]; intros s' Hs'; [split; reflexivity |].
    destruct (step_track op i s' Hs' Hi) as [E1 E0].
    destruct (IH (step op s').1 (DocastleSpec.step_wf op s' Hs')) as [R1 R0].
    change (run (op :: ops') s') with (run ops' (step op s').1).
    cbn [fold_left]. rewrite R1, R0, E1, E0. split; reflexivity. }
  unfold cpu1_latch_r, cpu2_latch_r. cbn [fst].
  destruct (Hrun ops s Hwf) as [R1 R0].
  destruct (Hrun (ops ++ [op_cpu1_latch_w i d]) s Hwf) as [W1 _].
  destruct (Hrun (ops ++ [op_cpu2_latch_w i d]) s Hwf) as [_ W0].
  rewrite fold_left_app in W1, W0. simpl in W1, W0.
  rewrite Nat.eqb_refl in W1, W0.
  repeat split; assumption || reflexivity.
Qed.

Lemma buffers_follow_writes_witness :
  (cpu2_latch_r 4
     (run ([op_cpu1_latch_w 4 0x11; op_cpu2_latch_w 4 0x22] ++ [op_cpu1_latch_w 4 0x33])
          docastle_state_ctor)).1 = 0x33.
Proof.
  apply (buffers_follow_writes docastle_state_ctor
           [op_cpu1_latch_w 4 0x11; op_cpu2_latch_w 4 0x22] 4 0 0x33).
  - split; reflexivity.
  - lia.
Defined.

(** *** The raster interrupt on any sample sequence *)

Lemma rising_no_two (prev : bool) (bits : list bool) (k : nat) :
  rising prev bits !! k = Some true -> rising prev bits !! S k <> Some true.
Proof.
  revert prev k. induction bits as [| b rest IH]; intros prev k Hk; [discriminate |].
  destruct k as [| k]; simpl in *.
  - injection Hk as Hb. apply andb_true_iff in Hb as [-> _].
    destruct rest as [| b' rest]; [discriminate |]. simpl.
    rewrite andb_false_r. discriminate.
  - apply IH. exact Hk.
Qed.

(** Over any run of hsync samples from any state, the slave's IRQ line
    is asserted at exactly the samples where MA6 is 1 and was 0 at the
    sample before (the stored bit, for the first sample).  It is therefore
    never asserted at two consecutive samples. *)
Theorem tint_fires_on_rising_edges (s : docastle_state) (mas : list Z) (k : nat) :
  tint_calls mas s
  = irq_if <$> rising (m_prev_ma6 s) ((fun m => Z.testbit m 6) <$> mas) /\
  (tint_calls mas s !! k = Some (irq_if true) ->
   tint_calls mas s !! S k <> Some (irq_if true)).
Proof.
  assert (Hcalls : forall mas' s',
            tint_calls mas' s'
            = irq_if <$> rising (m_prev_ma6 s') ((fun m => Z.testbit m 6) <$> mas')).
  { induction mas' as [| ma mas' IH]; intros s'; [reflexivity |].
    cbn [tint_calls]. rewrite DocastleSpec.tint_sample. cbn [fst snd].
    rewrite IH. cbn [m_prev_ma6 set_prev_ma6 fmap list_fmap rising].
    rewrite MrdoVideoSpec.to_bool_BIT by lia. reflexivity. }
  split; [apply Hcalls |].
  rewrite Hcalls, !list_lookup_fmap.
  intros Hk Hk'.
  destruct (rising (m_prev_ma6 s) ((fun m => Z.testbit m 6) <$> mas) !! k)
    as [[|] |] eqn:E; try discriminate.
  destruct (rising (m_prev_ma6 s) ((fun m => Z.testbit m 6) <$> mas) !! S k)
    as [[|] |] eqn:E'; try discriminate.
  exact (rising_no_two _ _ _ E E').
Qed.

Lemma tint_fires_on_rising_edges_witness :
  tint_calls [0x40; 0x40; 0x00; 0x7f] docastle_state_ctor
  = [irq_if true; irq_if false; irq_if false; irq_if true].
Proof.
  apply (proj1 (tint_fires_on_rising_edges docastle_state_ctor
                  [0x40; 0x40; 0x00; 0x7f] 0)).
Defined.

(** *** Tiles *)

Lemma docastle_tile_check :
  forallb (fun a => (to_u8 (Z.land a 0x1f) =? a mod 32)
                    && (BIT (Z.land a 0x3f) 5 =? BIT a 5)
                    && (to_u8 (Z.land (Z.land a 0x3f) 0x1f) =? to_u8 (Z.land a 0x1f)))
          (map Z.of_nat (seq 0 256)) = true.
Proof. vm_compute. reflexivity. Qed.

Lemma docastle_code_check :
  forallb (fun f => (to_u16 (Z.lor f (Z.shiftl 0 8)) =? f)
                    && (to_u16 (Z.lor f (Z.shiftl 1 8)) =? f + 256))
          (map Z.of_nat (seq 0 256)) = true.
Proof. vm_compute. reflexivity. Qed.

(** A tile shows what the two video RAM writes put there: after writing
    [d] to video RAM and [a] to colour RAM at the same offset, the tile
    code is [d] plus 256 times bit 5 of [a] (so below 512), the colour is
    [a] modulo 32, and bits 6 and 7 of [a] make no difference.  Writes at
    another offset leave the tile as it was. *)
Theorem tile_after_writes (v : video_ram) (i j : nat) (d a d' : Z) :
  (i < length (m_videoram v))%nat ->
  (i < length (m_colorram v))%nat ->
  MrdoVideo.is_byte d ->
  MrdoVideo.is_byte a ->
  j <> i ->
  let v1 := (colorram_w i a (videoram_w i d v).1).1 in
  get_tile_info i v1 = mk_tile_data 0 (d + 256 * BIT a 5) (a mod 32) 0 /\
  0 <= tile_code (get_tile_info i v1) < 512 /\
  get_tile_info i (colorram_w i (Z.land a 0x3f) (videoram_w i d v).1).1
  = get_tile_info i v1 /\
  get_tile_info i (videoram_w j d' v1).1 = get_tile_info i v1 /\
  get_tile_info i (colorram_w j d' v1).1 = get_tile_info i v1.
Proof.
  intros Hv Hc Hd Ha Hj. cbv zeta.
  pose proof (byte_forall _ docastle_tile_check a Ha) as Hat. cbv beta in Hat.
  repeat (apply andb_true_iff in Hat as [Hat ?]).
  pose proof (byte_forall _ docastle_code_check d Hd) as Hco. cbv beta in Hco.
  apply andb_true_iff in Hco as [Hc0 Hc1].
  repeat match goal with
         | H : (_ =? _) = true |- _ => apply Z.eqb_eq in H
         end.
  assert (Hcode : forall x, BIT x 5 = BIT a 5 ->
            to_u16 (Z.lor d (Z.shiftl (BIT x 5) 8)) = d + 256 * BIT a 5).
  { intros x ->. destruct (BIT_cases a 5 ltac:(lia)) as [-> | ->];
      [rewrite Hc0 | rewrite Hc1]; lia. }
  unfold get_tile_info, colorram_w, videoram_w, buffer_at.
  cbn [fst m_videoram m_colorram].
  repeat first
    [ rewrite list_lookup_insert_eq by (rewrite ?length_insert; assumption)
    | rewrite list_lookup_insert_ne by exact Hj ].
  cbn [default tile_code]. unfold id.
  rewrite (Hcode a eq_refl). rewrite (Hcode (Z.land a 63)) by assumption.
  repeat split; try congruence.
  - unfold MrdoVideo.is_byte in Hd. destruct (BIT_cases a 5 ltac:(lia)) as [-> | ->]; lia.
  - unfold MrdoVideo.is_byte in Hd. destruct (BIT_cases a 5 ltac:(lia)) as [-> | ->]; lia.
Qed.

Lemma tile_after_writes_witness :
  get_tile_info 5 (colorram_w 5 0xe3 (videoram_w 5 0x41
                     (mk_video_ram (replicate 0x400 0) (replicate 0x400 0))).1).1
  = mk_tile_data 0 (0x41 + 256 * BIT 0xe3 5) (0xe3 mod 32) 0.
Proof.
  apply (tile_after_writes (mk_video_ram (replicate 0x400 0) (replicate 0x400 0))
           5 6 0x41 0xe3 0).
  - cbn [m_videoram]. rewrite length_replicate. lia.
  - cbn [m_colorram]. rewrite length_replicate. lia.
  - unfold MrdoVideo.is_byte. lia.
  - unfold MrdoVideo.is_byte. lia.
  - lia.
Defined.

(** *** Inputs and screen flip *)

Lemma nibble_pack_check :
  forallb (fun h0 => forallb (fun h1 =>
             negb ((h0 <? 16) && (h1 <? 16))
             || (to_u8 (Z.lor (Z.shiftl h1 4) h0) =? h0 + 16 * h1))
             (map Z.of_nat (seq 0 16)))
          (map Z.of_nat (seq 0 256)) = true.
Proof. vm_compute. reflexivity. Qed.

Lemma flip_offset_check :
  forallb (fun o => (Bool.eqb (to_bool (BIT o 7)) (0x80 <=? o))
                    && (Z.land o 7 =? o mod 8))
          (map Z.of_nat (seq 0 256)) = true.
Proof. vm_compute. reflexivity. Qed.

(** A read of the input port packs the two 4-bit input chips into one
    byte, chip 1 in the high nibble; it latches the screen flip from bit 7
    of the offset and selects input line [offset mod 8] on both chips.  A
    write to the same range only latches the flip, whatever the data.  A
    read with side effects disabled returns 0xff and touches nothing. *)
Theorem inputs_read_and_flip (h0 h1 offset data : Z) :
  0 <= h0 < 16 ->
  0 <= h1 < 16 ->
  0 <= offset < 256 ->
  inputs_flipscreen_r true h0 h1 offset = (0xff, []) /\
  inputs_flipscreen_r false h0 h1 offset
  = (h0 + 16 * h1,
     [flip_screen_set (0x80 <=? offset);
      inp_write_s 0 (offset mod 8); inp_write_s 1 (offset mod 8)]) /\
  flipscreen_w offset data = [flip_screen_set (0x80 <=? offset)].
Proof.
  intros H0 H1 Ho.
  pose proof (byte_forall _ flip_offset_check offset Ho) as Hf. cbv beta in Hf.
  apply andb_true_iff in Hf as [Hflip Hsel].
  apply Bool.eqb_prop in Hflip. apply Z.eqb_eq in Hsel.
  pose proof (byte_forall _ nibble_pack_check h0 ltac:(lia)) as Hp. cbv beta in Hp.
  rewrite forallb_forall in Hp.
  specialize (Hp h1). 
  assert (Hin : In h1 (map Z.of_nat (seq 0 16))).
  { apply in_map_iff. exists (Z.to_nat h1). split; [lia |]. apply in_seq. lia. }
  specialize (Hp Hin).
  assert (E0 : (h0 <? 16) = true) by (apply Z.ltb_lt; lia).
  assert (E1 : (h1 <? 16) = true) by (apply Z.ltb_lt; lia).
  rewrite E0, E1 in Hp. cbn [andb negb orb] in Hp. apply Z.eqb_eq in Hp.
  unfold inputs_flipscreen_r, flipscreen_w. cbn [negb].
  rewrite Hflip, Hsel, Hp. repeat split.
Qed.

Lemma inputs_read_and_flip_witness :
  inputs_flipscreen_r false 0x9 0x6 0x83
  = (0x9 + 16 * 0x6,
     [flip_screen_set (0x80 <=? 0x83);
      inp_write_s 0 (0x83 mod 8); inp_write_s 1 (0x83 mod 8)]).
Proof.
  apply (inputs_read_and_flip 0x9 0x6 0x83 0); lia.
Defined.

(** *** Palette pens *)

(** An exhaustive check over [0, n) decides a property of every number in
    that range. *)
Lemma range_forall (n : nat) (P : Z -> bool) :
  forallb P (map Z.of_nat (seq 0 n)) = true ->
  forall d, 0 <= d < Z.of_nat n -> P d = true.
Proof.
  intros Hall d Hd. rewrite forallb_forall in Hall. apply Hall.
  apply in_map_iff. exists (Z.to_nat d). split; [lia |]. apply in_seq. lia.
Qed.

Lemma palette_unfolded (prom : list Z) :
  (0x100 <= length prom)%nat ->
  palette prom = Some (concat (map (entry_calls prom) (MrdoVideo.upto 0x100))).
Proof.
  intros Hp. unfold palette.
  assert (Hm : mapM (palette_entry prom) (MrdoVideo.upto 0x100)
               = Some (map (entry_calls prom) (MrdoVideo.upto 0x100))).
  { apply mapM_Some_2.
    assert (Hall : forall i, In i (MrdoVideo.upto 0x100) ->
              palette_entry prom i = Some (entry_calls prom i)).
    { intros i Hi. apply MrdoVideoSpec.in_upto in Hi.
      unfold palette_entry, entry_calls.
      destruct (MrdoVideoSpec.read_at_is_Some prom i ltac:(lia)) as [p ->].
      reflexivity. }
    induction (MrdoVideo.upto 0x100) as [| i l IH]; [constructor |].
    constructor; [apply Hall; left; reflexivity |].
    apply IH. intros j Hj. apply Hall. right. exact Hj. }
  rewrite Hm. reflexivity.
Qed.

Lemma pens_of_calls (prom : list Z) (l : list Z) :
  map call_pen (concat (map (entry_calls prom) l))
  = concat (map (fun i => [pen_low i; pen_high i]) l).
Proof.
  induction l as [| i l IH]; [reflexivity |].
  cbn [map concat]. rewrite map_app, IH. reflexivity.
Qed.

Lemma all_pens_NoDup : NoDup all_pens.
Proof. apply (bool_decide_unpack _). vm_compute. exact I. Qed.

Lemma pen_source_check :
  forallb (fun pen =>
             (0 <=? pen_source pen) && (pen_source pen <? 0x100)
             && ((pen =? pen_low (pen_source pen)) || (pen =? pen_high (pen_source pen)))
             && (pen_source (Z.lxor pen 8) =? pen_source pen))
          (map Z.of_nat (seq 0 512)) = true.
Proof. vm_compute. reflexivity. Qed.

(** The palette initialisation sets each of the 512 pens exactly once.
    Pen [p] takes its colour from PROM entry
    [((p >> 1) AND 0xf8) OR (p AND 7)], so the two pens that differ only
    in bit 3 always get the same colour, and the PROM is read inside its
    first 0x100 bytes only. *)
Theorem palette_sets_every_pen_once (prom : list Z) (pen : Z) :
  (0x100 <= length prom)%nat ->
  0 <= pen < 512 ->
  exists calls p,
    palette prom = Some calls /\
    length calls = 512%nat /\
    NoDup (map call_pen calls) /\
    read_at prom (pen_source pen) = Some p /\
    In (set_pen_color pen (prom_color p)) calls /\
    pen_source (Z.lxor pen 8) = pen_source pen.
Proof.
  intros Hp Hpen.
  pose proof (range_forall 512 _ pen_source_check pen Hpen) as Hs. cbv beta in Hs.
  repeat (apply andb_true_iff in Hs as [Hs ?]).
  apply Z.leb_le in Hs.
  repeat match goal with
         | H : (_ <? _) = true |- _ => apply Z.ltb_lt in H
         | H : (pen_source _ =? _) = true |- _ => apply Z.eqb_eq in H
         end.
  destruct (MrdoVideoSpec.read_at_is_Some prom (pen_source pen) ltac:(lia)) as [p Hread].
  exists (concat (map (entry_calls prom) (MrdoVideo.upto 0x100))), p.
  split; [apply palette_unfolded; exact Hp |].
  assert (Hpens : map call_pen (concat (map (entry_calls prom) (MrdoVideo.upto 0x100)))
                  = all_pens) by apply pens_of_calls.
  split.
  { rewrite <- (length_map call_pen), Hpens. reflexivity. }
  split; [rewrite Hpens; exact all_pens_NoDup |].
  split; [exact Hread |]. split; [| assumption].
  apply in_concat. exists (entry_calls prom (pen_source pen)). split.
  - apply in_map. unfold MrdoVideo.upto. apply in_map_iff.
    exists (Z.to_nat (pen_source pen)). split; [lia |]. apply in_seq. lia.
  - unfold entry_calls. rewrite Hread. cbn [default]. unfold id.
    match goal with
    | H : (_ || _) = true |- _ => apply orb_true_iff in H as [E | E]
    end; apply Z.eqb_eq in E; rewrite <- E; [left | right; left]; reflexivity.
Qed.

Lemma palette_sets_every_pen_once_witness :
  exists calls p,
    palette (replicate 0x200 0x5a) = Some calls /\
    length calls = 512%nat /\
    NoDup (map call_pen calls) /\
    read_at (replicate 0x200 0x5a) (pen_source 0x1ff) = Some p /\
    In (set_pen_color 0x1ff (prom_color p)) calls /\
    pen_source (Z.lxor 0x1ff 8) = pen_source 0x1ff.
Proof.
  apply (palette_sets_every_pen_once (replicate 0x200 0x5a) 0x1ff).
  - rewrite length_replicate. lia.
  - lia.
Defined.

(** *** Sprites *)

Lemma sprite_x_check :
  forallb (fun b => let x := Z.land (b + 8) 0xff - 8 in
                    (-8 <=? x) && (x <? 248) && ((x - b) mod 256 =? 0)
                    && (x =? (if b <? 248 then b else b - 256)))
          (map Z.of_nat (seq 0 256)) = true.
Proof. vm_compute. reflexivity. Qed.

Lemma sprite_attr_check :
  forallb (fun a => to_u8 (Z.land a 0x1f) =? a mod 32)
          (map Z.of_nat (seq 0 256)) = true.
Proof. vm_compute. reflexivity. Qed.

Lemma sprite_code_check :
  forallb (fun c => to_u16 c =? c) (map Z.of_nat (seq 0 256)) = true.
Proof. vm_compute. reflexivity. Qed.

(** With a single 4-byte entry in sprite RAM, [draw_sprites] fills the
    priority bitmap and draws the sprite twice (visible, then as a mask).
    The x byte wraps so that 248..255 mean -8..-1; y is the first byte
    minus 32; the colour is the attribute modulo 32 and bits 6 and 7 of
    the attribute flip x and y.  With the screen flipped the sprite goes to
    (240 - x, 176 - y) with both flips inverted. *)
Theorem draw_sprites_single_entry (b0 b1 b2 b3 : Z) :
  MrdoVideo.is_byte b0 ->
  MrdoVideo.is_byte b1 ->
  MrdoVideo.is_byte b2 ->
  MrdoVideo.is_byte b3 ->
  let x := if b1 <? 248 then b1 else b1 - 256 in
  let y := b0 - 32 in
  let fx := Z.testbit b2 6 in
  let fy := Z.testbit b2 7 in
  draw_sprites false [b0; b1; b2; b3]
  = Some [priority_fill 1;
          prio_transmask 1 b3 (b2 mod 32) fx fy x y 0x00 0x80ff;
          prio_transmask 1 b3 (b2 mod 32) fx fy x y 0x02 0x7fff] /\
  draw_sprites true [b0; b1; b2; b3]
  = Some [priority_fill 1;
          prio_transmask 1 b3 (b2 mod 32) (negb fx) (negb fy) (240 - x) (176 - y) 0x00 0x80ff;
          prio_transmask 1 b3 (b2 mod 32) (negb fx) (negb fy) (240 - x) (176 - y) 0x02 0x7fff] /\
  -8 <= x < 248 /\ -32 <= y < 224.
Proof.
  intros H0 H1 H2 H3. cbv zeta.
  pose proof (byte_forall _ sprite_x_check b1 H1) as Hx. cbv beta zeta in Hx.
  repeat (apply andb_true_iff in Hx as [Hx ?]).
  pose proof (byte_forall _ sprite_attr_check b2 H2) as Ha. cbv beta in Ha.
  pose proof (byte_forall _ sprite_code_check b3 H3) as Hc. cbv beta in Hc.
  apply Z.leb_le in Hx.
  repeat match goal with
         | H : (_ <? _) = true |- _ => apply Z.ltb_lt in H
         | H : (_ =? _) = true |- _ => apply Z.eqb_eq in H
         end.
  assert (Hbody : forall flip,
            draw_sprite flip [b0; b1; b2; b3] 0
            = Some (let '(xp, yp, f1, f2) :=
                      if flip
                      then (240 - (Z.land (b1 + 8) 255 - 8), 176 - (b0 - 32),
                            negb (Z.testbit b2 6), negb (Z.testbit b2 7))
                      else (Z.land (b1 + 8) 255 - 8, b0 - 32,
                            Z.testbit b2 6, Z.testbit b2 7) in
                    [prio_transmask 1 b3 (b2 mod 32) f1 f2 xp yp 0x00 0x80ff;
                     prio_transmask 1 b3 (b2 mod 32) f1 f2 xp yp 0x02 0x7fff])).
  { intros flip. unfold draw_sprite.
    change (read_at [b0; b1; b2; b3] (0 + (0 + 1))) with (Some b1).
    change (read_at [b0; b1; b2; b3] (0 + 0)) with (Some b0).
    change (read_at [b0; b1; b2; b3] (0 + (0 + 2))) with (Some b2).
    change (read_at [b0; b1; b2; b3] (0 + (0 + 3))) with (Some b3).
    cbn [mbind option_bind].
    rewrite !MrdoVideoSpec.to_bool_BIT by lia. rewrite Ha, Hc.
    destruct flip; reflexivity. }
  assert (Hdraw : forall flip,
            draw_sprites flip [b0; b1; b2; b3]
            = (calls ← draw_sprite flip [b0; b1; b2; b3] 0;
               Some (priority_fill 1 :: calls ++ []))).
  { intros flip. unfold draw_sprites.
    change (Z.of_nat (length [b0; b1; b2; b3]) - 4) with 0.
    change (Z.to_nat (0 + 4)) with 4%nat.
    cbn [loop_offs_down]. change (0 <=? 0) with true. cbv iota.
    change (0 <=? 0 - 4) with false. cbv iota.
    destruct (draw_sprite flip [b0; b1; b2; b3] 0); reflexivity. }
  rewrite !Hdraw, !Hbody. cbn [mbind option_bind app].
  match goal with H : Z.land (b1 + 8) 255 - 8 = _ |- _ => rewrite H end.
  unfold MrdoVideo.is_byte in *.
  repeat split; try lia; destruct (b1 <? 248); lia.
Qed.

Lemma draw_sprites_single_entry_witness :
  draw_sprites false [0x40; 0xfc; 0x45; 0x12]
  = Some [priority_fill 1;
          prio_transmask 1 0x12 (0x45 mod 32) (Z.testbit 0x45 6) (Z.testbit 0x45 7)
                         (if 0xfc <? 248 then 0xfc else 0xfc - 256) (0x40 - 32) 0x00 0x80ff;
          prio_transmask 1 0x12 (0x45 mod 32) (Z.testbit 0x45 6) (Z.testbit 0x45 7)
                         (if 0xfc <? 248 then 0xfc else 0xfc - 256) (0x40 - 32) 0x02 0x7fff].
Proof.
  apply (draw_sprites_single_entry 0x40 0xfc 0x45 0x12);
    unfold MrdoVideo.is_byte; lia.
Defined.

(** [draw_sprites] adds the loop offset twice: the entry at offset [offs]
    is read from index [2 * offs] on.  With two entries or more (8 bytes;
    the machines have 0x200) the first iteration already reads past the
    end of sprite RAM. *)
Theorem draw_sprites_reads_past_end (flip : bool) (ram : list Z) :
  (8 <= length ram)%nat ->
  draw_sprite flip ram (Z.of_nat (length ram) - 4) = None /\
  draw_sprites flip ram = None.
Proof.
  intros Hlen.
  assert (Hbody : draw_sprite flip ram (Z.of_nat (length ram) - 4) = None).
  { unfold draw_sprite.
    assert (Hr : read_at ram (Z.of_nat (length ram) - 4
                              + (Z.of_nat (length ram) - 4 + 1)) = None).
    { unfold read_at.
      destruct (Z.ltb_spec (Z.of_nat (length ram) - 4
                            + (Z.of_nat (length ram) - 4 + 1)) 0); [reflexivity |].
      apply lookup_ge_None_2. lia. }
    rewrite Hr. reflexivity. }
  split; [exact Hbody |].
  unfold draw_sprites.
  destruct (Z.to_nat (Z.of_nat (length ram) - 4 + 4)) as [| fuel] eqn:Hfuel; [lia |].
  cbn [loop_offs_down].
  destruct (Z.leb_spec 0 (Z.of_nat (length ram) - 4)); [| lia].
  rewrite Hbody. reflexivity.
Qed.

Lemma draw_sprites_reads_past_end_witness :
  draw_sprites false (replicate 0x200 0) = None.
Proof.
  apply (draw_sprites_reads_past_end false (replicate 0x200 0)).
  rewrite length_replicate. lia.
Defined.

Lemma extend_sprite_check :
  forallb (fun c => (to_u16 (Z.lor (to_u16 (Z.lor c (Z.shiftl 0 8))) (Z.shiftl 0 9)) =? c)
                    && (to_u16 (Z.lor (to_u16 (Z.lor c (Z.shiftl 1 8))) (Z.shiftl 0 9)) =? c + 256)
                    && (to_u16 (Z.lor (to_u16 (Z.lor c (Z.shiftl 0 8))) (Z.shiftl 1 9)) =? c + 512)
                    && (to_u16 (Z.lor (to_u16 (Z.lor c (Z.shiftl 1 8))) (Z.shiftl 1 9)) =? c + 768)
                    && (negb (c <? 32)
                        || ((to_u8 (Z.land c (Z.lnot (Z.shiftl 1 4))) =? c mod 16)
                            && (c =? c mod 16 + 16 * BIT c 4))))
          (map Z.of_nat (seq 0 256)) = true.
Proof. vm_compute. reflexivity. Qed.

(** [extend_sprite] moves bit 4 of a 5-bit colour and the y-flip flag into
    bits 8 and 9 of an 8-bit tile code, leaving a 4-bit colour and no
    y-flip: nothing is lost, and the extended code is below 1024. *)
Theorem extend_sprite_packs (flipy : bool) (code color : Z) :
  MrdoVideo.is_byte code ->
  0 <= color < 32 ->
  extend_sprite flipy code color
  = (false, code + 256 * BIT color 4 + 512 * Z.b2z flipy, color mod 16) /\
  0 <= code + 256 * BIT color 4 + 512 * Z.b2z flipy < 1024 /\
  color = color mod 16 + 16 * BIT color 4.
Proof.
  intros Hcode Hcolor.
  pose proof (byte_forall _ extend_sprite_check code Hcode) as Hc. cbv beta in Hc.
  repeat (apply andb_true_iff in Hc as [Hc ?]).
  pose proof (byte_forall _ extend_sprite_check color ltac:(lia)) as Hk. cbv beta in Hk.
  apply andb_true_iff in Hk as [_ Hk].
  assert (Hlt : (color <? 32) = true) by (apply Z.ltb_lt; lia).
  rewrite Hlt in Hk. cbn [negb orb] in Hk.
  apply andb_true_iff in Hk as [Hk Hbit].
  repeat match goal with
         | H : (_ =? _) = true |- _ => apply Z.eqb_eq in H
         end.
  unfold extend_sprite, MrdoVideo.is_byte in *. rewrite Hk.
  destruct (BIT_cases color 4 ltac:(lia)) as [Eb | Eb]; rewrite Eb in *;
    destruct flipy; cbn [Z.b2z];
    repeat match goal with H : to_u16 _ = _ |- _ => rewrite H; clear H end;
    repeat split; try lia; f_equal; f_equal; lia.
Qed.

Lemma extend_sprite_packs_witness :
  extend_sprite true 0x7f 0x15
  = (false, 0x7f + 256 * BIT 0x15 4 + 512 * Z.b2z true, 0x15 mod 16).
Proof.
  apply (extend_sprite_packs true 0x7f 0x15); unfold MrdoVideo.is_byte; lia.
Defined.

End DocastleVideoSpec.

(** * Part IX: the ADPCM player of idsoccer *)

Module IdsoccerSpec.
Import Idsoccer.

(** What holds of the ADPCM state all the time. *)
Lemma adpcm_int_invariant (rom : list Z) (st : Z) (a : adpcm_state) :
  Forall MrdoVideo.is_byte rom ->
  0 <= m_adpcm_pos a ->
  (m_adpcm_data a = -1 \/ MrdoVideo.is_byte (m_adpcm_data a)) ->
  exists a' calls,
    adpcm_int rom st a = Some (a', calls) /\
    0 <= m_adpcm_pos a' /\
    (m_adpcm_data a' = -1 \/ MrdoVideo.is_byte (m_adpcm_data a')) /\
    m_adpcm_status a' = m_adpcm_status a.
Proof.
  intros Hrom Hpos Hdata. unfold adpcm_int.
  destruct (Z.leb_spec (Z.of_nat (length rom)) (m_adpcm_pos a)) as [Hend | Hin].
  - eexists _, _. split; [reflexivity |]. cbn. auto.
  - destruct (Z.eqb_spec (m_adpcm_data a) (-1)) as [Hm | Hm]; cbn [negb].
    + destruct (MrdoVideoSpec.read_at_is_Some rom (m_adpcm_pos a) ltac:(lia)) as [b Hb].
      rewrite Hb. cbn [mbind option_bind].
      eexists _, _. split; [reflexivity |]. cbn. split; [lia |]. split; [| reflexivity].
      right. unfold read_at in Hb.
      destruct (m_adpcm_pos a <? 0); [discriminate |].
      rewrite Forall_lookup in Hrom. exact (Hrom _ _ Hb).
    + eexists _, _. split; [reflexivity |]. cbn. auto.
Qed.

Lemma adpcm_step_inv (rom : list Z) (a : adpcm_state) (op : adpcm_op) :
  Forall MrdoVideo.is_byte rom ->
  adpcm_inv a ->
  exists a', adpcm_step rom a op = Some a' /\ adpcm_inv a'.
Proof.
  intros Hrom (Hpos & Hdata & Hstatus).
  destruct op as [d | | st |]; cbn [adpcm_step].
  - eexists. split; [reflexivity |]. unfold adpcm_w, adpcm_inv.
    destruct (to_bool (BIT d 7)); cbn; repeat split; try assumption.
    assert (0 <= Z.land d 127) by (apply Z.land_nonneg; lia). lia.
  - eexists. split; [reflexivity |]. unfold adpcm_status_r, adpcm_inv. cbn.
    repeat split; try assumption.
    destruct Hstatus as [-> | ->]; [right | left]; reflexivity.
  - destruct (adpcm_int_invariant rom st a Hrom Hpos Hdata)
      as (a' & calls & -> & Hp & Hd & Hs).
    eexists. split; [reflexivity |]. cbn. unfold adpcm_inv.
    rewrite Hs. auto.
  - eexists. split; [reflexivity |]. unfold adpcm_inv, machine_reset. cbn.
    repeat split; auto; lia.
Qed.

(** From a reset on, through any sequence of command writes, status
    reads, MSM5205 interrupts and resets, the player never reads outside
    the ADPCM ROM; the play position is never negative, the pending byte
    is none (-1) or a ROM byte, and the status is 0 or 0x80. *)
Theorem adpcm_never_reads_outside
    (rom : list Z) (ops : list adpcm_op) (a0 : adpcm_state) :
  Forall MrdoVideo.is_byte rom ->
  exists a,
    adpcm_run rom ops (machine_reset a0) = Some a /\
    0 <= m_adpcm_pos a /\
    (m_adpcm_data a = -1 \/ MrdoVideo.is_byte (m_adpcm_data a)) /\
    (m_adpcm_status a = 0 \/ m_adpcm_status a = 0x80).
Proof.
  intros Hrom.
  assert (Hrun : forall ops' a', adpcm_inv a' ->
            exists a, adpcm_run rom ops' a' = Some a /\ adpcm_inv a).
  { induction ops' as [| op ops' IH]; intros a' Ha'; cbn [adpcm_run].
    - eauto.
    - destruct (adpcm_step_inv rom a' op Hrom Ha') as (a1 & -> & Ha1).
      cbn [mbind option_bind]. apply IH. exact Ha1. }
  destruct (Hrun ops (machine_reset a0)) as (a & Hr & Hinv).
  - unfold adpcm_inv, machine_reset. cbn. repeat split; auto; lia.
  - exists a. split; [exact Hr | exact Hinv].
Qed.

Lemma adpcm_never_reads_outside_witness :
  exists a,
    adpcm_run [0x12; 0x34] [op_adpcm_w 0; op_adpcm_int 1; op_adpcm_int 1;
                            op_adpcm_int 1; op_adpcm_int 1; op_adpcm_int 1]
              (machine_reset (mk_adpcm_state 7 7 7 7)) = Some a /\
    0 <= m_adpcm_pos a /\
    (m_adpcm_data a = -1 \/ MrdoVideo.is_byte (m_adpcm_data a)) /\
    (m_adpcm_status a = 0 \/ m_adpcm_status a = 0x80).
Proof.
  apply (adpcm_never_reads_outside [0x12; 0x34]).
  repeat constructor; unfold MrdoVideo.is_byte; lia.
Defined.

(** *** Playing a sample *)

Lemma adpcm_ints_app (rom : list Z) (n m : nat) (a : adpcm_state) :
  adpcm_ints rom (n + m) a
  = (r ← adpcm_ints rom n a;
     r' ← adpcm_ints rom m r.1;
     Some (r'.1, r.2 ++ r'.2)).
Proof.
  revert a. induction n as [| n IH]; intros a.
  - cbn [Nat.add adpcm_ints mbind option_bind fst snd app].
    destruct (adpcm_ints rom m a) as [[a' c] |]; reflexivity.
  - cbn [Nat.add adpcm_ints].
    destruct (adpcm_int rom 1 a) as [[a1 c1] |]; [| reflexivity].
    cbn [mbind option_bind fst snd]. rewrite IH.
    destruct (adpcm_ints rom n a1) as [[a2 c2] |]; [| reflexivity].
    cbn [mbind option_bind fst snd].
    destruct (adpcm_ints rom m a2) as [[a3 c3] |]; [| reflexivity].
    cbn [mbind option_bind fst snd]. rewrite app_assoc. reflexivity.
Qed.

Lemma adpcm_fetch (before : list Z) (b : Z) (rest : list Z) (a : adpcm_state) :
  m_adpcm_pos a = Z.of_nat (length before) ->
  m_adpcm_data a = -1 ->
  adpcm_int (before ++ b :: rest) 1 a
  = Some (mk_adpcm_state (m_adpcm_pos a + 1) (m_adpcm_idle a) b (m_adpcm_status a),
          [msm_data_w (to_u8 (Z.shiftr b 4))]).
Proof.
  intros Hpos Hdata. unfold adpcm_int. rewrite Hpos, Hdata.
  rewrite length_app. cbn [length].
  destruct (Z.leb_spec (Z.of_nat (length before + S (length rest)))
                       (Z.of_nat (length before))); [lia |].
  change (negb (-1 =? -1)) with false. cbv iota.
  replace (Z.of_nat (length before)) with (Z.of_nat (length before) + 0) at 1 by lia.
  rewrite MrdoVideoSpec.read_at_app_r by lia. reflexivity.
Qed.

Lemma adpcm_one_byte (before : list Z) (b : Z) (rest : list Z) (a : adpcm_state) :
  m_adpcm_pos a = Z.of_nat (length before) ->
  m_adpcm_data a = -1 ->
  MrdoVideo.is_byte b ->
  rest <> [] ->
  adpcm_ints (before ++ b :: rest) 2 a
  = Some (mk_adpcm_state (m_adpcm_pos a + 1) (m_adpcm_idle a) (-1) (m_adpcm_status a),
          [msm_data_w (to_u8 (Z.shiftr b 4)); msm_data_w (to_u8 (Z.land b 0x0f))]).
Proof.
  intros Hpos Hdata Hb Hrest. cbn [adpcm_ints].
  rewrite adpcm_fetch by assumption. cbn [mbind option_bind fst snd].
  unfold adpcm_int. cbn [m_adpcm_pos m_adpcm_data m_adpcm_idle m_adpcm_status].
  rewrite Hpos, length_app. cbn [length].
  destruct rest as [| r rest]; [contradiction |]. cbn [length].
  destruct (Z.leb_spec (Z.of_nat (length before + S (S (length rest))))
                       (Z.of_nat (length before) + 1)); [lia |].
  destruct (Z.eqb_spec b (-1)) as [E | _]; [unfold MrdoVideo.is_byte in Hb; lia |].
  reflexivity.
Qed.

(** Between a start and the end of the ROM, every two MSM5205 interrupts
    play one ROM byte, high nibble first, and advance the position by one:
    [2n] interrupts play the [n] bytes at the play position in order and
    leave no byte pending. *)
Theorem adpcm_streams_nibbles
    (before bytes after : list Z) (a : adpcm_state) :
  m_adpcm_pos a = Z.of_nat (length before) ->
  m_adpcm_data a = -1 ->
  Forall MrdoVideo.is_byte bytes ->
  after <> [] ->
  adpcm_ints (before ++ bytes ++ after) (2 * length bytes) a
  = Some (mk_adpcm_state (m_adpcm_pos a + Z.of_nat (length bytes))
                         (m_adpcm_idle a) (-1) (m_adpcm_status a),
          nibble_calls bytes).
Proof.
  intros Hpos Hdata Hbytes Hafter.
  revert before a Hpos Hdata.
  induction Hbytes as [| b bs Hb Hbs IH]; intros before a Hpos Hdata.
  - cbn [length Nat.mul adpcm_ints nibble_calls map concat].
    rewrite Z.add_0_r, <- Hdata. destruct a; reflexivity.
  - replace (2 * length (b :: bs))%nat with (2 + 2 * length bs)%nat by (cbn [length]; lia).
    rewrite adpcm_ints_app.
    change ((b :: bs) ++ after) with (b :: (bs ++ after)).
    rewrite adpcm_one_byte; try assumption.
    2:{ destruct bs; [exact Hafter | discriminate]. }
    cbn [mbind option_bind fst snd].
    replace (before ++ b :: bs ++ after) with ((before ++ [b]) ++ bs ++ after)
      by (rewrite <- app_assoc; reflexivity).
    rewrite IH.
    + cbn [mbind option_bind fst snd m_adpcm_pos m_adpcm_idle m_adpcm_status
           nibble_calls map concat length app].
      do 2 f_equal. f_equal. lia.
    + cbn [m_adpcm_pos]. rewrite Hpos, length_app. cbn [length]. lia.
    + reflexivity.
Qed.

Lemma adpcm_streams_nibbles_witness :
  adpcm_ints ([0xaa] ++ [0x12; 0x34] ++ [0xbb]) (2 * length [0x12; 0x34])
             (mk_adpcm_state 1 0 (-1) 0)
  = Some (mk_adpcm_state (1 + Z.of_nat (length [0x12; 0x34])) 0 (-1) 0,
          nibble_calls [0x12; 0x34]).
Proof.
  apply (adpcm_streams_nibbles [0xaa] [0x12; 0x34] [0xbb] (mk_adpcm_state 1 0 (-1) 0)).
  - reflexivity.
  - reflexivity.
  - repeat constructor; unfold MrdoVideo.is_byte; lia.
  - discriminate.
Defined.

(** At the end of the ROM the player stops: once the position has reached
    the size of the ROM every interrupt resets the MSM5205 and marks the
    player idle, changing nothing else.  The position reaches the end as
    soon as the last byte has been fetched, so the low nibble of the last
    ROM byte is never played. *)
Theorem adpcm_stops_at_end
    (before : list Z) (b : Z) (n : nat) (a : adpcm_state) :
  m_adpcm_pos a = Z.of_nat (length before) ->
  m_adpcm_data a = -1 ->
  adpcm_ints (before ++ [b]) (S (S n)) a
  = Some (mk_adpcm_state (m_adpcm_pos a + 1) 1 b (m_adpcm_status a),
          msm_data_w (to_u8 (Z.shiftr b 4)) :: replicate (S n) (msm_reset_w 1)).
Proof.
  intros Hpos Hdata.
  assert (Hend : forall k a', Z.of_nat (length (before ++ [b])) <= m_adpcm_pos a' ->
            m_adpcm_idle a' = 1 ->
            adpcm_ints (before ++ [b]) k a' = Some (a', replicate k (msm_reset_w 1))).
  { induction k as [| k IH]; intros a' Hp Hi; [reflexivity |].
    cbn [adpcm_ints]. unfold adpcm_int at 1.
    destruct (Z.leb_spec (Z.of_nat (length (before ++ [b]))) (m_adpcm_pos a')); [| lia].
    cbn [mbind option_bind fst snd]. rewrite IH by (cbn; lia || reflexivity).
    cbn [mbind option_bind fst snd app replicate].
    rewrite <- Hi. destruct a'; reflexivity. }
  change (S (S n)) with (1 + S n)%nat. rewrite adpcm_ints_app.
  cbn [adpcm_ints]. rewrite adpcm_fetch by assumption.
  cbn [mbind option_bind fst snd app].
  cbn [adpcm_ints]. unfold adpcm_int at 1.
  cbn [m_adpcm_pos m_adpcm_data m_adpcm_idle m_adpcm_status].
  destruct (Z.leb_spec (Z.of_nat (length (before ++ [b]))) (m_adpcm_pos a + 1)) as [_ | Hlt].
  2:{ rewrite length_app in Hlt. cbn [length] in Hlt. lia. }
  cbn [mbind option_bind fst snd].
  rewrite Hend.
  - reflexivity.
  - cbn [m_adpcm_pos]. rewrite length_app. cbn [length]. lia.
  - reflexivity.
Qed.

Lemma adpcm_stops_at_end_witness :
  adpcm_ints ([0x12] ++ [0x34]) 4 (mk_adpcm_state 1 0 (-1) 0)
  = Some (mk_adpcm_state (1 + 1) 1 0x34 0,
          msm_data_w (to_u8 (Z.shiftr 0x34 4)) :: replicate 3 (msm_reset_w 1)).
Proof.
  apply (adpcm_stops_at_end [0x12] 0x34 2 (mk_adpcm_state 1 0 (-1) 0)); reflexivity.
Defined.

Lemma adpcm_command_check :
  forallb (fun d => (Bool.eqb (to_bool (BIT d 7)) (0x80 <=? d))
                    && (negb (d <? 0x80) || (Z.land d 0x7f =? d))
                    && (to_u8 (Z.land d 0x0f) =? d mod 16))
          (map Z.of_nat (seq 0 256)) = true.
Proof. vm_compute. reflexivity. Qed.

(** A command byte below 0x80 starts sample number [cmd] at ROM offset
    [cmd * 0x200], marks the player busy and releases the MSM5205 reset; a
    command byte of 0x80 or more marks it idle, resets the MSM5205 and
    leaves the position where it is.  Neither touches the pending byte or
    the status.  So after a start with nothing pending the next interrupt
    fetches the sample's first byte and plays its high nibble, while after
    a start with a byte still pending it plays that byte's low nibble
    before anything of the new sample. *)
Theorem adpcm_command (rom : list Z) (cmd : Z) (a : adpcm_state) :
  MrdoVideo.is_byte cmd ->
  (cmd < 0x80 ->
   adpcm_w cmd a
   = (mk_adpcm_state (cmd * 0x200) 0 (m_adpcm_data a) (m_adpcm_status a),
      [msm_reset_w 0])) /\
  (0x80 <= cmd ->
   adpcm_w cmd a
   = (mk_adpcm_state (m_adpcm_pos a) 1 (m_adpcm_data a) (m_adpcm_status a),
      [msm_reset_w 1])) /\
  (forall b,
     cmd < 0x80 ->
     m_adpcm_data a = -1 ->
     read_at rom (cmd * 0x200) = Some b ->
     adpcm_int rom 1 (adpcm_w cmd a).1
     = Some (mk_adpcm_state (cmd * 0x200 + 1) 0 b (m_adpcm_status a),
             [msm_data_w (to_u8 (Z.shiftr b 4))])) /\
  (cmd < 0x80 ->
   MrdoVideo.is_byte (m_adpcm_data a) ->
   cmd * 0x200 < Z.of_nat (length rom) ->
   adpcm_int rom 1 (adpcm_w cmd a).1
   = Some (mk_adpcm_state (cmd * 0x200) 0 (-1) (m_adpcm_status a),
           [msm_data_w (m_adpcm_data a mod 16)])).
Proof.
  intros Hcmd.
  pose proof (byte_forall _ adpcm_command_check cmd Hcmd) as Hc. cbv beta in Hc.
  repeat (apply andb_true_iff in Hc as [Hc ?]).
  apply Bool.eqb_prop in Hc.
  assert (Hstart : cmd < 0x80 ->
            adpcm_w cmd a
            = (mk_adpcm_state (cmd * 0x200) 0 (m_adpcm_data a) (m_adpcm_status a),
               [msm_reset_w 0])).
  { intros Hlt. unfold adpcm_w. rewrite Hc.
    destruct (Z.leb_spec 0x80 cmd); [lia |].
    assert (E : (cmd <? 0x80) = true) by (apply Z.ltb_lt; lia).
    match goal with Hm : (negb (cmd <? _) || _) = true |- _ =>
      rewrite E in Hm; cbn [negb orb] in Hm; apply Z.eqb_eq in Hm; rewrite Hm end.
    reflexivity. }
  split; [exact Hstart |]. split; [| split].
  - intros Hge. unfold adpcm_w. rewrite Hc.
    destruct (Z.leb_spec 0x80 cmd); [reflexivity | lia].
  - intros b Hlt Hdata Hread. rewrite (Hstart Hlt).
    unfold adpcm_int. cbn [fst m_adpcm_pos m_adpcm_data m_adpcm_idle m_adpcm_status].
    assert (Hin : cmd * 512 < Z.of_nat (length rom)).
    { unfold read_at in Hread. destruct (cmd * 512 <? 0); [discriminate |].
      apply lookup_lt_Some in Hread. unfold MrdoVideo.is_byte in Hcmd. lia. }
    destruct (Z.leb_spec (Z.of_nat (length rom)) (cmd * 512)); [lia |].
    rewrite Hdata. change (negb (-1 =? -1)) with false. cbv iota.
    rewrite Hread. reflexivity.
  - intros Hlt Hpend Hrom. rewrite (Hstart Hlt).
    pose proof (byte_forall _ adpcm_command_check (m_adpcm_data a) Hpend) as Hp.
    cbv beta in Hp. apply andb_true_iff in Hp as [_ Hp]. apply Z.eqb_eq in Hp.
    unfold adpcm_int. cbn [fst m_adpcm_pos m_adpcm_data m_adpcm_idle m_adpcm_status].
    destruct (Z.leb_spec (Z.of_nat (length rom)) (cmd * 512)); [lia |].
    destruct (Z.eqb_spec (m_adpcm_data a) (-1));
      [unfold MrdoVideo.is_byte in Hpend; lia |].
    cbn [negb]. rewrite Hp. reflexivity.
Qed.

Lemma adpcm_command_witness :
  adpcm_w 0x01 (machine_reset (mk_adpcm_state 0 0 0 0))
  = (mk_adpcm_state (0x01 * 0x200) 0 (-1) 0, [msm_reset_w 0]) /\
  adpcm_w 0x80 (mk_adpcm_state 0x250 0 0x9c 0)
  = (mk_adpcm_state 0x250 1 0x9c 0, [msm_reset_w 1]) /\
  adpcm_int (replicate 0x400 0x77) 1
            (adpcm_w 0x01 (machine_reset (mk_adpcm_state 0 0 0 0))).1
  = Some (mk_adpcm_state (0x01 * 0x200 + 1) 0 0x77 0,
          [msm_data_w (to_u8 (Z.shiftr 0x77 4))]) /\
  adpcm_int (replicate 0x400 0x77) 1
            (adpcm_w 0x01 (mk_adpcm_state 0x250 0 0x9c 0)).1
  = Some (mk_adpcm_state (0x01 * 0x200) 0 (-1) 0, [msm_data_w (0x9c mod 16)]).
Proof.
  assert (B1 : MrdoVideo.is_byte 0x01) by (unfold MrdoVideo.is_byte; lia).
  assert (B80 : MrdoVideo.is_byte 0x80) by (unfold MrdoVideo.is_byte; lia).
  split; [| split; [| split]].
  - apply (proj1 (adpcm_command [] 0x01 (machine_reset (mk_adpcm_state 0 0 0 0)) B1)).
    lia.
  - apply (proj1 (proj2 (adpcm_command [] 0x80 (mk_adpcm_state 0x250 0 0x9c 0) B80))).
    lia.
  - apply (proj1 (proj2 (proj2 (adpcm_command (replicate 0x400 0x77) 0x01
                                  (machine_reset (mk_adpcm_state 0 0 0 0)) B1)))).
    + lia.
    + reflexivity.
    + reflexivity.
  - apply (proj2 (proj2 (proj2 (adpcm_command (replicate 0x400 0x77) 0x01
                                  (mk_adpcm_state 0x250 0 0x9c 0) B1)))).
    + lia.
    + unfold MrdoVideo.is_byte. cbn. lia.
    + rewrite length_replicate. lia.
Defined.

(** The status port toggles bit 7 on every read: from a status of 0 or
    0x80, successive reads return the other value and then the first one
    again, and two reads leave the player as it was. *)
Theorem adpcm_status_alternates (a : adpcm_state) :
  m_adpcm_status a = 0 \/ m_adpcm_status a = 0x80 ->
  (adpcm_status_r a).1 = 0x80 - m_adpcm_status a /\
  (adpcm_status_r (adpcm_status_r a).2).1 = m_adpcm_status a /\
  (adpcm_status_r (adpcm_status_r a).2).2 = a /\
  (adpcm_status_r (machine_reset a)).1 = 0x80.
Proof.
  intros Hs. destruct a as [pos idle data status]. cbn in Hs.
  unfold adpcm_status_r, machine_reset. cbn [fst snd m_adpcm_status m_adpcm_pos
                                               m_adpcm_idle m_adpcm_data].
  destruct Hs as [-> | ->]; repeat split; reflexivity.
Qed.

Lemma adpcm_status_alternates_witness :
  (adpcm_status_r (adpcm_status_r (mk_adpcm_state 0 0 (-1) 0x80)).2).2
  = mk_adpcm_state 0 0 (-1) 0x80.
Proof.
  apply (adpcm_status_alternates (mk_adpcm_state 0 0 (-1) 0x80)).
  right. reflexivity.
Defined.

End IdsoccerSpec.
